(** * sequential-workflow-designer: workspace, toolbox item and control bar

    A shallow embedding of the interactive core of the designer: the
    [Workspace] class (viewport transform, selection, removal of the
    selected step), the [ToolboxItem] class (drag of a new step) and the
    delete handler of the [ControlBar].

    Conventions of the embedding.
    - A JavaScript [number] is an exact rational ([Q]); equalities between
      computed numbers are stated with [==] ([Qeq]).  The rounding of
      floating-point arithmetic is not modelled.
    - Objects that the code compares or mutates through references (steps,
      sequences, step components) live in finite maps from references to
      their contents; a method that dereferences a reference fails
      ([None]) when the reference is dangling.
    - A [SimpleEvent.forward] call is recorded in the list of fired
      notifications; a [BehaviorController.start] call is recorded in the
      list of start requests. *)

From Stdlib Require Import QArith Qminmax Lqa.
From stdpp Require Import gmap strings list fin_maps pretty.

Local Open Scope Z_scope.

(** ** JavaScript array built-ins used by the code *)

Module Js.

(** [Array.prototype.indexOf]: the first index holding [a], [-1] when
    there is none.  Elements are compared with [===]; for object
    references this is the equality of the references. *)
Fixpoint indexOf `{EqDecision A} (l : list A) (a : A) : Z :=
  match l with
  | [] => -1
  | b :: l' =>
      if decide (b = a) then 0
      else let i := indexOf l' a in if decide (i = -1) then -1 else i + 1
  end.

(** [Array.prototype.splice(start, deleteCount)] with no inserted item:
    a negative [start] counts from the end, and both [start] and
    [deleteCount] are clamped to the array. *)
Definition splice {A} (start deleteCount : Z) (l : list A) : list A :=
  let len := Z.of_nat (length l) in
  let actualStart :=
    if decide (start < 0) then Z.max (len + start) 0 else Z.min start len in
  let actualDeleteCount := Z.min (Z.max deleteCount 0) (len - actualStart) in
  take (Z.to_nat actualStart) l
    ++ drop (Z.to_nat (actualStart + actualDeleteCount)) l.

End Js.

(** ** 2D vectors *)

Module Vector.

Record t : Type := new { x : Q; y : Q }.

(** Modelled from the spec: the [Vector] class of [core/vector] is not
    part of the sources at hand; the spec lists it as "2D vector math"
    and the workspace uses the four operations below, taken
    component-wise. *)
Definition add (a b : t) : t := new (x a + x b) (y a + y b).
Definition subtract (a b : t) : t := new (x a - x b) (y a - y b).
Definition multiplyByScalar (a : t) (s : Q) : t := new (x a * s) (y a * s).
Definition divideByScalar (a : t) (s : Q) : t := new (x a / s) (y a / s).

(** Equality of the coordinates as numbers. *)
Definition equiv (a b : t) : Prop := (x a == x b)%Q /\ (y a == y b)%Q.

End Vector.

Infix "=v=" := Vector.equiv (at level 70, no associativity).

(** ** The workspace *)

Module Workspace.

(** References to step objects, sequence objects, step components and
    DOM elements.  Two references are equal exactly when they denote
    the same object. *)
Abbreviation StepRef := nat (only parsing).
Abbreviation SeqRef := nat (only parsing).
Abbreviation CompRef := nat (only parsing).
Abbreviation Element := nat (only parsing).

Definition GRID_SIZE : Q := 50.

(** Modelled from the spec: the enumeration [StepComponentState] of
    [workspace/component] is not part of the sources at hand; the two
    members are the ones the workspace names. *)
Inductive StepComponentState : Type := default | selected.

#[export] Instance StepComponentState_eq_dec : EqDecision StepComponentState.
Proof. solve_decision. Defined.

(** Modelled from the spec: the interface [StepComponent] of
    [workspace/component] is not part of the sources at hand.  The
    workspace reads [step] and [parentSequence] and calls [setState],
    which records the visual state of the component. *)
Record StepComponent : Type := {
  step : StepRef;
  parentSequence : SeqRef;
  state : StepComponentState
}.

Record ComponentView : Type := { width : Q; height : Q }.

Record MouseEvent : Type := {
  button : Z;
  target : Element;
  pageX : Q;
  pageY : Q
}.

Record WheelEvent : Type := {
  wheelPageX : Q;
  wheelPageY : Q;
  deltaY : Q
}.

(** The behaviors the workspace creates, with the arguments of their
    [create] functions (the workspace itself is the other argument). *)
Inductive Behavior : Type :=
| SelectStepBehavior (clickedStep : CompRef)
| MoveViewPortBehavior (startPosition : Vector.t).

(** The four [SimpleEvent]s of the workspace, with the forwarded value. *)
Inductive Notification : Type :=
| onSelectedStepChanged (s : option StepRef)
| onViewPortChanged
| onIsReadonlyChanged (b : bool)
| onChanged.

(** The rendering of the step tree, which the sources at hand only
    call: [create] builds the component tree of a sequence (allocating
    its step components), [findStepComponent] hit-tests a DOM element
    and [componentView] gives the rendered size. *)
Class Components : Type := {
  StartStopComponent : Type;
  create : SeqRef -> gmap nat (list nat) -> gmap nat StepComponent ->
           StartStopComponent * gmap nat StepComponent;
  findStepComponent : StartStopComponent -> Element -> option CompRef;
  componentView : StartStopComponent -> ComponentView
}.

(** [WorkspaceView]: what the DOM reports ([getPosition], [getSize])
    and the attributes the view writes. *)
Record WorkspaceView : Type := {
  canvasPosition : Vector.t;
  canvasSize : Vector.t;
  currentView : option ComponentView;
  gridPattern : option (Vector.t * Q);
  gridPatternPath : option Q;
  foreground : option (Vector.t * Q)
}.

Definition setView (v : ComponentView) (wv : WorkspaceView) : WorkspaceView :=
  {| canvasPosition := canvasPosition wv;
     canvasSize := canvasSize wv;
     currentView := Some v;
     gridPattern := gridPattern wv;
     gridPatternPath := gridPatternPath wv;
     foreground := foreground wv |}.

Definition setPositionAndScale (p : Vector.t) (scale : Q)
    (wv : WorkspaceView) : WorkspaceView :=
  let size := (GRID_SIZE * scale)%Q in
  {| canvasPosition := canvasPosition wv;
     canvasSize := canvasSize wv;
     currentView := currentView wv;
     gridPattern := Some (p, size);
     gridPatternPath := Some size;
     foreground := Some (p, scale) |}.

Definition getPosition (wv : WorkspaceView) : Vector.t := canvasPosition wv.
Definition getSize (wv : WorkspaceView) : Vector.t := canvasSize wv.

Section WithComponents.
Context `{Components}.

(** The fields of the class, the objects its references point to
    ([sequences], [components]) and what it has sent out
    ([behaviorController]: the start requests, oldest first;
    [forwarded]: the notifications, oldest first). *)
Record Workspace : Type := {
  view : WorkspaceView;
  sequence : SeqRef;
  behaviorController : list (MouseEvent * Behavior);
  mainComponent : option StartStopComponent;
  selectedStep : option CompRef;
  isReadonly : bool;
  position : Vector.t;
  scale : Q;
  sequences : gmap nat (list nat);
  components : gmap nat StepComponent;
  forwarded : list Notification
}.

Definition with_view (v : WorkspaceView) (w : Workspace) : Workspace :=
  {| view := v; sequence := sequence w;
     behaviorController := behaviorController w;
     mainComponent := mainComponent w; selectedStep := selectedStep w;
     isReadonly := isReadonly w; position := position w; scale := scale w;
     sequences := sequences w; components := components w;
     forwarded := forwarded w |}.

Definition with_mainComponent (m : option StartStopComponent)
    (w : Workspace) : Workspace :=
  {| view := view w; sequence := sequence w;
     behaviorController := behaviorController w;
     mainComponent := m; selectedStep := selectedStep w;
     isReadonly := isReadonly w; position := position w; scale := scale w;
     sequences := sequences w; components := components w;
     forwarded := forwarded w |}.

Definition with_selectedStep (s : option CompRef) (w : Workspace) : Workspace :=
  {| view := view w; sequence := sequence w;
     behaviorController := behaviorController w;
     mainComponent := mainComponent w; selectedStep := s;
     isReadonly := isReadonly w; position := position w; scale := scale w;
     sequences := sequences w; components := components w;
     forwarded := forwarded w |}.

Definition with_isReadonly (b : bool) (w : Workspace) : Workspace :=
  {| view := view w; sequence := sequence w;
     behaviorController := behaviorController w;
     mainComponent := mainComponent w; selectedStep := selectedStep w;
     isReadonly := b; position := position w; scale := scale w;
     sequences := sequences w; components := components w;
     forwarded := forwarded w |}.

Definition with_position (p : Vector.t) (w : Workspace) : Workspace :=
  {| view := view w; sequence := sequence w;
     behaviorController := behaviorController w;
     mainComponent := mainComponent w; selectedStep := selectedStep w;
     isReadonly := isReadonly w; position := p; scale := scale w;
     sequences := sequences w; components := components w;
     forwarded := forwarded w |}.

Definition with_scale (s : Q) (w : Workspace) : Workspace :=
  {| view := view w; sequence := sequence w;
     behaviorController := behaviorController w;
     mainComponent := mainComponent w; selectedStep := selectedStep w;
     isReadonly := isReadonly w; position := position w; scale := s;
     sequences := sequences w; components := components w;
     forwarded := forwarded w |}.

Definition with_sequences (m : gmap nat (list nat)) (w : Workspace) : Workspace :=
  {| view := view w; sequence := sequence w;
     behaviorController := behaviorController w;
     mainComponent := mainComponent w; selectedStep := selectedStep w;
     isReadonly := isReadonly w; position := position w; scale := scale w;
     sequences := m; components := components w;
     forwarded := forwarded w |}.

Definition with_components (m : gmap nat StepComponent) (w : Workspace) : Workspace :=
  {| view := view w; sequence := sequence w;
     behaviorController := behaviorController w;
     mainComponent := mainComponent w; selectedStep := selectedStep w;
     isReadonly := isReadonly w; position := position w; scale := scale w;
     sequences := sequences w; components := m;
     forwarded := forwarded w |}.

(** [SimpleEvent.forward]. *)
Definition forward (n : Notification) (w : Workspace) : Workspace :=
  {| view := view w; sequence := sequence w;
     behaviorController := behaviorController w;
     mainComponent := mainComponent w; selectedStep := selectedStep w;
     isReadonly := isReadonly w; position := position w; scale := scale w;
     sequences := sequences w; components := components w;
     forwarded := forwarded w ++ [n] |}.

(** [BehaviorController.start]. *)
Definition start (e : MouseEvent) (b : Behavior) (w : Workspace) : Workspace :=
  {| view := view w; sequence := sequence w;
     behaviorController := behaviorController w ++ [(e, b)];
     mainComponent := mainComponent w; selectedStep := selectedStep w;
     isReadonly := isReadonly w; position := position w; scale := scale w;
     sequences := sequences w; components := components w;
     forwarded := forwarded w |}.

(** [StepComponent.setState], on the component a reference denotes. *)
Definition setState (c : CompRef) (s : StepComponentState)
    (w : Workspace) : option Workspace :=
  comp ← components w !! c;
  Some (with_components
          (<[c := {| step := step comp;
                     parentSequence := parentSequence comp;
                     state := s |}]> (components w)) w).

(** The state of a workspace right after its constructor. *)
Definition new (v : WorkspaceView) (sequence : SeqRef)
    (seqs : gmap nat (list nat)) : Workspace :=
  {| view := v; sequence := sequence; behaviorController := [];
     mainComponent := None; selectedStep := None; isReadonly := false;
     position := Vector.new 0 0; scale := 1;
     sequences := seqs; components := ∅; forwarded := [] |}.

Definition render (w : Workspace) : Workspace :=
  let '(mc, comps) := create (sequence w) (sequences w) (components w) in
  let w := with_components comps w in
  let w := with_mainComponent (Some mc) w in
  with_view (setView (componentView mc) (view w)) w.

Definition onMouseDown (e : MouseEvent) (w : Workspace) : Workspace :=
  match mainComponent w with
  | None => w
  | Some mc =>
      let isNotScrollClick := negb (button e =? 1) in
      let clickedStep :=
        if isNotScrollClick && negb (isReadonly w)
        then findStepComponent mc (target e)
        else None in
      match clickedStep with
      | Some c => start e (SelectStepBehavior c) w
      | None => start e (MoveViewPortBehavior (position w)) w
      end
  end.

(** The pointer relative to the canvas, and the point of the
    unscaled canvas it is over. *)
Definition mousePoint (e : WheelEvent) (w : Workspace) : Vector.t :=
  Vector.subtract (Vector.new (wheelPageX e) (wheelPageY e))
                  (getPosition (view w)).

Definition mouseRealPoint (e : WheelEvent) (w : Workspace) : Vector.t :=
  Vector.subtract (Vector.divideByScalar (mousePoint e w) (scale w))
                  (Vector.divideByScalar (position w) (scale w)).

(** Where the foreground transform [translate(position) scale(scale)]
    draws the point [p] of the unscaled canvas. *)
Definition screenPoint (w : Workspace) (p : Vector.t) : Vector.t :=
  Vector.add (Vector.multiplyByScalar p (scale w)) (position w).

Definition wheelDelta (e : WheelEvent) : Q :=
  if Qlt_le_dec 0 (deltaY e) then (- (1 # 10))%Q else (1 # 10)%Q.

Definition newScale (e : WheelEvent) (w : Workspace) : Q :=
  Qmin (Qmax (scale w + wheelDelta e) (1 # 10)) 3.

Definition onWheel (e : WheelEvent) (w : Workspace) : Workspace :=
  let mousePoint := mousePoint e w in
  let mouseRealPoint := mouseRealPoint e w in
  let newScale := newScale e w in
  let w := with_position
             (Vector.add (Vector.multiplyByScalar mouseRealPoint (- newScale))
                         mousePoint) w in
  let w := with_scale newScale w in
  let w := with_view (setPositionAndScale (position w) (scale w) (view w)) w in
  forward onViewPortChanged w.

Definition setPosition (p : Vector.t) (w : Workspace) : Workspace :=
  let w := with_position p w in
  let w := with_view (setPositionAndScale (position w) (scale w) (view w)) w in
  forward onViewPortChanged w.

Definition center (w : Workspace) : Workspace :=
  match mainComponent w with
  | Some mc =>
      let size := getSize (view w) in
      let x := Qmax 0 ((Vector.x size - width (componentView mc)) / 2) in
      let y := Qmax 20 ((Vector.y size - height (componentView mc)) / 2) in
      let w := with_position (Vector.new x y) w in
      let w := with_scale 1 w in
      let w := with_view (setPositionAndScale (position w) (scale w) (view w)) w in
      forward onViewPortChanged w
  | None => w
  end.

Definition selectStep (c : CompRef) (w : Workspace) : option Workspace :=
  w ← match selectedStep w with
      | Some a => setState a default w
      | None => Some w
      end;
  let w := with_selectedStep (Some c) w in
  w ← setState c selected w;
  comp ← components w !! c;
  Some (forward (onSelectedStepChanged (Some (step comp))) w).

Definition clearSelectedStep (w : Workspace) : option Workspace :=
  match selectedStep w with
  | Some a =>
      w ← setState a default w;
      let w := with_selectedStep None w in
      Some (forward (onSelectedStepChanged None) w)
  | None => Some w
  end.

Definition notifyChanged (w : Workspace) : option Workspace :=
  w ← clearSelectedStep w;
  let w := render w in
  Some (forward onChanged w).

Definition removeSelectedStep (w : Workspace) : option Workspace :=
  match selectedStep w with
  | Some a =>
      comp ← components w !! a;
      steps ← sequences w !! parentSequence comp;
      let index := Js.indexOf steps (step comp) in
      let w := with_sequences
                 (<[parentSequence comp := Js.splice index 1 steps]>
                    (sequences w)) w in
      notifyChanged w
  | None => Some w
  end.

Definition toggleIsReadonly (w : Workspace) : Workspace :=
  let w := with_isReadonly (negb (isReadonly w)) w in
  forward (onIsReadonlyChanged (isReadonly w)) w.

(** [Workspace.append], without the event bindings. *)
Definition append (v : WorkspaceView) (sequence : SeqRef)
    (seqs : gmap nat (list nat)) : Workspace :=
  center (render (new v sequence seqs)).

(** The visual state of the component a reference denotes. *)
Definition stateOf (w : Workspace) (c : CompRef) : option StepComponentState :=
  state <$> components w !! c.

(** The number of step components in the [selected] state. *)
Definition selectedCount (w : Workspace) : nat :=
  size (filter (fun kv => state kv.2 = selected) (components w)).

(** The selection is consistent when the components in the
    [selected] state are exactly the selected one (which, then,
    exists). *)
Definition selection_consistent (w : Workspace) : Prop :=
  forall c, stateOf w c = Some selected <-> selectedStep w = Some c.

(** The same as a test: the references of the components in the
    [selected] state are the selected one, or none. *)
Definition selection_consistentb (w : Workspace) : bool :=
  bool_decide
    ((map_to_list (filter (fun kv => state kv.2 = selected) (components w))).*1
     = match selectedStep w with Some a => [a] | None => [] end).

(** Calls of the two selection methods, and their runs. *)
Inductive SelectionCall : Type :=
| CallSelectStep (c : CompRef)
| CallClearSelectedStep.

Definition call (k : SelectionCall) (w : Workspace) : option Workspace :=
  match k with
  | CallSelectStep c => selectStep c w
  | CallClearSelectedStep => clearSelectedStep w
  end.

Fixpoint calls (ks : list SelectionCall) (w : Workspace) : option Workspace :=
  match ks with
  | [] => Some w
  | k :: ks => w ← call k w; calls ks w
  end.

(** The components a run of calls is given. *)
Definition selects (ks : list SelectionCall) : list CompRef :=
  omap (fun k => match k with
                 | CallSelectStep c => Some c
                 | CallClearSelectedStep => None
                 end) ks.

(** Wheel events delivered one after the other. *)
Definition onWheels (es : list WheelEvent) (w : Workspace) : Workspace :=
  foldl (fun w e => onWheel e w) w es.

End WithComponents.

Arguments Workspace {_}.

(** The spec's words for the zoom step: the scale moves by [step] and
    is then "clamped to [0.1, 3.0]". *)
Definition spec_clamped_scale (s step : Q) : Q :=
  let v := (s + step)%Q in
  if Qlt_le_dec v (1 # 10) then (1 # 10)%Q
  else if Qlt_le_dec 3 v then 3%Q
  else v.

End Workspace.

(** ** The toolbox item *)

Module Toolbox.

Abbreviation ObjRef := nat (only parsing).

(** Modelled from the spec: the types [Step] and [StepDefinition] of
    [definition] and [designer-configuration] are not part of the
    sources at hand.  The spec gives the plain-data shape "id, type,
    name, properties, optional nested sequence"; a template may have
    no [id] yet. *)
#[local] Unset Elimination Schemes.
Inductive Step : Type :=
  Build_Step (id : option string) (type name : string)
             (properties : list (string * string))
             (sequence : option (list Step)).
#[local] Set Elimination Schemes.

Definition id (s : Step) : option string :=
  let '(Build_Step i _ _ _ _) := s in i.
Definition type (s : Step) : string :=
  let '(Build_Step _ t _ _ _) := s in t.
Definition name (s : Step) : string :=
  let '(Build_Step _ _ n _ _) := s in n.
Definition properties (s : Step) : list (string * string) :=
  let '(Build_Step _ _ _ p _) := s in p.
Definition sequence (s : Step) : option (list Step) :=
  let '(Build_Step _ _ _ _ q) := s in q.

(** The assignment [s.id = i]. *)
Definition set_id (i : string) (s : Step) : Step :=
  Build_Step (Some i) (type s) (name s) (properties s) (sequence s).

(** Modelled from the spec: [ObjectCloner.deepClone] is not part of the
    sources at hand; the spec describes a "structural recursive copy
    constrained to the known Step/Sequence shape".  [copy] rebuilds
    the value field by field; [deepClone] below stores the copy in a
    new object. *)
Fixpoint copy (s : Step) : Step :=
  match s with
  | Build_Step i t n p q =>
      Build_Step i t n (List.map (fun kv => (fst kv, snd kv)) p)
                 (match q with
                  | Some steps => Some (List.map copy steps)
                  | None => None
                  end)
  end.

(** Modelled from the spec: [Uid.next] is not part of the sources at
    hand; the spec only says that it assigns unique IDs.  The generator
    is a counter: the IDs issued so far are the renderings of the
    numbers below it. *)
Module Uid.
Definition next (n : nat) : string * nat := (pretty n, S n).
Definition issued (n : nat) : list string := pretty <$> seq 0 n.
End Uid.

Record MouseEvent : Type := { button : Z; pageX : Q; pageY : Q }.

(** A touch event carries the page positions of its touches. *)
Record TouchEvent : Type := { touches : list Vector.t }.

(** What a handler did to the event it was given. *)
Record EventFlags : Type := {
  defaultPrevented : bool;
  propagationStopped : bool
}.

(** Modelled from the spec: [readMousePosition] and [readTouchPosition]
    of [core/event-readers] are not part of the sources at hand; the
    spec lists them as "mouse/touch coordinate extraction".  The
    position of a touch event is the one of its first touch. *)
Definition readMousePosition (e : MouseEvent) : Vector.t :=
  Vector.new (pageX e) (pageY e).
Definition readTouchPosition (e : TouchEvent) : option Vector.t :=
  head (touches e).

Inductive Behavior : Type := DragStepBehavior (newStep : ObjRef).

(** A toolbox item holds a reference to its template. *)
Record ToolboxItem : Type := { step : ObjRef }.

(** What the item shares with the rest of the designer: the step
    objects, the [isReadonly] flag of the designer state, the ID
    generator, and the start requests sent to the behavior controller
    (oldest first). *)
Record Designer : Type := {
  objects : gmap nat Step;
  isReadonly : bool;
  uid : nat;
  behaviorController : list (Vector.t * Behavior)
}.

Definition with_objects (m : gmap nat Step) (d : Designer) : Designer :=
  {| objects := m; isReadonly := isReadonly d; uid := uid d;
     behaviorController := behaviorController d |}.

Definition with_uid (n : nat) (d : Designer) : Designer :=
  {| objects := objects d; isReadonly := isReadonly d; uid := n;
     behaviorController := behaviorController d |}.

(** [BehaviorController.start]. *)
Definition start (p : Vector.t) (b : Behavior) (d : Designer) : Designer :=
  {| objects := objects d; isReadonly := isReadonly d; uid := uid d;
     behaviorController := behaviorController d ++ [(p, b)] |}.

Definition deepClone (r : ObjRef) (d : Designer) : option (ObjRef * Designer) :=
  s ← objects d !! r;
  let r' := fresh (dom (objects d)) in
  Some (r', with_objects (<[r' := copy s]> (objects d)) d).

Definition createStep (step : ObjRef) (d : Designer) : option (ObjRef * Designer) :=
  '(newStep, d) ← deepClone step d;
  let '(i, n) := Uid.next (uid d) in
  let d := with_uid n d in
  s ← objects d !! newStep;
  Some (newStep, with_objects (<[newStep := set_id i s]> (objects d)) d).

Definition startDrag (item : ToolboxItem) (position : Vector.t)
    (d : Designer) : option Designer :=
  if negb (isReadonly d) then
    '(newStep, d) ← createStep (step item) d;
    Some (start position (DragStepBehavior newStep) d)
  else Some d.

Definition onTouchstart (item : ToolboxItem) (e : TouchEvent)
    (d : Designer) : option (EventFlags * Designer) :=
  if decide (length (touches e) = 1%nat) then
    position ← readTouchPosition e;
    d ← startDrag item position d;
    Some ({| defaultPrevented := true; propagationStopped := true |}, d)
  else Some ({| defaultPrevented := true; propagationStopped := false |}, d).

Definition onMousedown (item : ToolboxItem) (e : MouseEvent)
    (d : Designer) : option (EventFlags * Designer) :=
  let isPrimaryButton := button e =? 0 in
  if isPrimaryButton then
    d ← startDrag item (readMousePosition e) d;
    Some ({| defaultPrevented := false; propagationStopped := true |}, d)
  else Some ({| defaultPrevented := false; propagationStopped := true |}, d).

Definition onContextMenu (e : MouseEvent) : EventFlags :=
  {| defaultPrevented := true; propagationStopped := false |}.

(** The drag of a new step has started between [d] and [d']: a new
    object holds the template's type, name, properties and sequence, and
    has for [id] an ID that was never issued before; every object of [d]
    (the template among them) is as it was, and the behavior controller
    was asked to start a drag-step behavior for the new object at
    [position]. *)
Definition drag_started (template : Step) (position : Vector.t)
    (d d' : Designer) : Prop :=
  exists (newStep : ObjRef) (i : string),
    (objects d !! newStep = None) /\
    (i ∉ Uid.issued (uid d)) /\
    (Uid.issued (uid d') = Uid.issued (uid d) ++ [i]) /\
    (objects d' =
       <[newStep := Build_Step (Some i) (type template) (name template)
                               (properties template) (sequence template)]>
         (objects d)) /\
    (id <$> objects d' !! newStep = Some (Some i)) /\
    (type <$> objects d' !! newStep = Some (type template)) /\
    (name <$> objects d' !! newStep = Some (name template)) /\
    (properties <$> objects d' !! newStep = Some (properties template)) /\
    (sequence <$> objects d' !! newStep = Some (sequence template)) /\
    (forall r s, objects d !! r = Some s -> objects d' !! r = Some s) /\
    behaviorController d' =
      behaviorController d ++ [(position, DragStepBehavior newStep)] /\
    isReadonly d' = isReadonly d.

End Toolbox.

(** ** The control bar *)

Module ControlBar.

(** The members of the designer context and of [SequenceModifier] that
    the delete handler uses; the sources at hand only call them.  Each
    may raise ([None]). *)
Class Context (DesignerContext Step Sequence : Type) : Type := {
  selectedStep : DesignerContext -> option Step;
  getSelectedStepParentSequence : DesignerContext -> option Sequence;
  deleteStep : Step -> Sequence -> DesignerContext -> option DesignerContext;
  setSelectedStep : option Step -> DesignerContext -> option DesignerContext;
  notifiyDefinitionChanged : DesignerContext -> option DesignerContext
}.

Definition onDeleteButtonClicked `{Context DesignerContext Step Sequence}
    (context : DesignerContext) : option DesignerContext :=
  match selectedStep context with
  | Some s =>
      parentSequence ← getSelectedStepParentSequence context;
      context ← deleteStep s parentSequence context;
      context ← setSelectedStep None context;
      notifiyDefinitionChanged context
  | None => Some context
  end.

End ControlBar.

(** ** A small designer, for running the definitions *)

Module Sample.

Import Workspace.

(** A rendering with one step component per step of the rendered
    sequence, each in the [default] state; a DOM element is named by
    the component it belongs to. *)
Definition allocate (parent : nat) (acc : list nat * gmap nat StepComponent)
    (st : nat) : list nat * gmap nat StepComponent :=
  let c := fresh (dom acc.2) in
  (acc.1 ++ [c],
   <[c := {| step := st; parentSequence := parent; state := default |}]> acc.2).

Definition rendering : Components :=
  {| StartStopComponent := list nat;
     create := fun s seqs comps =>
       foldl (allocate s) ([], comps) (from_option id [] (seqs !! s));
     findStepComponent := fun mc el =>
       if decide (el ∈ mc) then Some el else None;
     componentView := fun mc => {| width := 200; height := 80 |} |}.

Definition view0 : WorkspaceView :=
  {| canvasPosition := Vector.new 10 20;
     canvasSize := Vector.new 800 600;
     currentView := None; gridPattern := None;
     gridPatternPath := None; foreground := None |}.

(** One sequence, [0], of the steps [11], [12] and [13]. *)
Definition sequences0 : gmap nat (list nat) := {[ 0%nat := [11; 12; 13]%nat ]}.

(** The workspace after [Workspace.append]: components [0], [1] and [2]
    stand for the three steps. *)
Definition rendered : @Workspace rendering :=
  @append rendering view0 0%nat sequences0.

(** The same with component [1] (of step [12]) selected. *)
Definition selected1 : @Workspace rendering :=
  with_selectedStep (Some 1%nat)
    (with_components
       (<[1%nat := {| step := 12; parentSequence := 0; state := selected |}]>
          (components rendered)) rendered).

(** The same with a selected component whose step, [99], is not in
    the sequence recorded as its parent. *)
Definition stale : @Workspace rendering :=
  with_selectedStep (Some 1%nat)
    (with_components
       (<[1%nat := {| step := 99; parentSequence := 0; state := selected |}]>
          (components rendered)) rendered).

Definition wheel_in : WheelEvent :=
  {| wheelPageX := 110; wheelPageY := 220; deltaY := -120 |}.
Definition wheel_out : WheelEvent :=
  {| wheelPageX := 110; wheelPageY := 220; deltaY := 3 |}.

Definition click (b : Z) (el : nat) : MouseEvent :=
  {| button := b; target := el; pageX := 50; pageY := 60 |}.

(** A toolbox item whose template is the object [0]. *)
Definition item : Toolbox.ToolboxItem := {| Toolbox.step := 0%nat |}.

Definition template : Toolbox.Step :=
  Toolbox.Build_Step None "task" "Send email" [("to", "ops")]
    (Some [Toolbox.Build_Step None "task" "Log" [] None]).

Definition designer (readonly : bool) : Toolbox.Designer :=
  {| Toolbox.objects := {[ 0%nat := template ]};
     Toolbox.isReadonly := readonly;
     Toolbox.uid := 2;
     Toolbox.behaviorController := [] |}.

(** A designer context for the control bar: the selected step and the
    steps of the only sequence. *)
Definition context : ControlBar.Context (option nat * list nat) nat unit :=
  {| ControlBar.selectedStep := fun ctx => ctx.1;
     ControlBar.getSelectedStepParentSequence := fun ctx => Some tt;
     ControlBar.deleteStep := fun s _ ctx =>
       Some (ctx.1, filter (fun x => x ≠ s) ctx.2);
     ControlBar.setSelectedStep := fun s ctx => Some (s, ctx.2);
     ControlBar.notifiyDefinitionChanged := fun ctx => Some ctx |}.

End Sample.

(** ** Runs of workspace methods *)

Module WorkspaceRuns.

Import Workspace.

Section WithComponents.
Context `{Components}.

(** The methods of the workspace that the rest of the designer and the
    DOM call. *)
Inductive Method : Type :=
| OnMouseDown (e : MouseEvent)
| OnWheel (e : WheelEvent)
| SetPosition (p : Vector.t)
| Center
| SelectStep (c : nat)
| ClearSelectedStep
| RemoveSelectedStep
| NotifyChanged
| ToggleIsReadonly.

Definition invoke (m : Method) (w : Workspace) : option Workspace :=
  match m with
  | OnMouseDown e => Some (onMouseDown e w)
  | OnWheel e => Some (onWheel e w)
  | SetPosition p => Some (setPosition p w)
  | Center => Some (center w)
  | SelectStep c => selectStep c w
  | ClearSelectedStep => clearSelectedStep w
  | RemoveSelectedStep => removeSelectedStep w
  | NotifyChanged => notifyChanged w
  | ToggleIsReadonly => Some (toggleIsReadonly w)
  end.

Fixpoint invokes (ms : list Method) (w : Workspace) : option Workspace :=
  match ms with
  | [] => Some w
  | m :: ms => w ← invoke m w; invokes ms w
  end.

(** The methods whose code reads the readonly flag. *)
Definition reads_isReadonly (m : Method) : bool :=
  match m with
  | OnMouseDown _ | ToggleIsReadonly => true
  | _ => false
  end.

(** The two methods that move the viewport under the pointer: zooming
    and panning. *)
Inductive ViewportMove : Type :=
| Zoom (e : WheelEvent)
| Pan (p : Vector.t).

Definition move (m : ViewportMove) (w : Workspace) : Workspace :=
  match m with
  | Zoom e => onWheel e w
  | Pan p => setPosition p w
  end.

Definition moves (ms : list ViewportMove) (w : Workspace) : Workspace :=
  foldl (fun w m => move m w) w ms.

(** Mouse-down events delivered one after the other. *)
Definition onMouseDowns (es : list MouseEvent) (w : Workspace) : Workspace :=
  foldl (fun w e => onMouseDown e w) w es.

(** The behavior [onMouseDown] creates for an event, when the main
    component is rendered. *)
Definition behaviorFor (e : MouseEvent) (w : Workspace) : option Behavior :=
  mc ← mainComponent w;
  Some (match (if negb (button e =? 1) && negb (isReadonly w)
               then findStepComponent mc (target e) else None) with
        | Some c => SelectStepBehavior c
        | None => MoveViewPortBehavior (position w)
        end).

(** The attributes of the view agree with the fields of the workspace:
    the foreground is drawn with the current position and scale, and the
    grid tile is [GRID_SIZE] times the scale, at the current position. *)
Definition view_synced (w : Workspace) : Prop :=
  foreground (view w) = Some (position w, scale w) /\
  gridPattern (view w) = Some (position w, (GRID_SIZE * scale w)%Q) /\
  gridPatternPath (view w) = Some (GRID_SIZE * scale w)%Q.

(** The view shows the view of the main component. *)
Definition view_shows_main (w : Workspace) : Prop :=
  currentView (view w) = componentView <$> mainComponent w.

Definition scale_in_range (w : Workspace) : Prop :=
  (1 # 10 <= scale w)%Q /\ (scale w <= 3)%Q.

(** [w'] differs from [w] in the start requests at most. *)
Definition same_but_requests (w w' : Workspace) : Prop :=
  view w' = view w /\ sequence w' = sequence w /\
  mainComponent w' = mainComponent w /\ selectedStep w' = selectedStep w /\
  isReadonly w' = isReadonly w /\ position w' = position w /\
  scale w' = scale w /\ sequences w' = sequences w /\
  components w' = components w /\ forwarded w' = forwarded w.

(** [w'] differs from [w] in the selection, the states of the
    components and the forwarded notifications at most. *)
Definition same_but_selection (w w' : Workspace) : Prop :=
  view w' = view w /\ sequence w' = sequence w /\
  behaviorController w' = behaviorController w /\
  mainComponent w' = mainComponent w /\
  isReadonly w' = isReadonly w /\ position w' = position w /\
  scale w' = scale w /\ sequences w' = sequences w.

End WithComponents.

End WorkspaceRuns.

(** ** Runs of toolbox events *)

Module ToolboxRuns.

Import Toolbox.

Inductive Input : Type :=
| Mousedown (e : MouseEvent)
| Touchstart (e : TouchEvent).

Definition handle (item : ToolboxItem) (i : Input) (d : Designer)
    : option (EventFlags * Designer) :=
  match i with
  | Mousedown e => onMousedown item e d
  | Touchstart e => onTouchstart item e d
  end.

Fixpoint handles (item : ToolboxItem) (inputs : list Input) (d : Designer)
    : option Designer :=
  match inputs with
  | [] => Some d
  | i :: inputs => '(_, d) ← handle item i d; handles item inputs d
  end.

(** The position the handlers pass to [startDrag], for the inputs on
    which they call it. *)
Definition dragPosition (i : Input) : option Vector.t :=
  match i with
  | Mousedown e => if button e =? 0 then Some (readMousePosition e) else None
  | Touchstart e =>
      if decide (length (touches e) = 1%nat) then readTouchPosition e else None
  end.

(** The steps the start requests are about, oldest first. *)
Definition requestedSteps (reqs : list (Vector.t * Behavior)) : list nat :=
  (fun r => let '(DragStepBehavior newStep) := r.2 in newStep) <$> reqs.

(** The [id] of the object a reference denotes. *)
Definition idOf (d : Designer) (r : nat) : option string :=
  s ← objects d !! r; id s.

End ToolboxRuns.

(** ** The buttons of the control bar *)

Module ControlBarButtons.

(** Modelled from the spec: the class [ControlBarView] of
    [control-bar/control-bar-view] is not part of the sources at hand;
    the control bar calls its two setters, which record the flag. *)
Record ControlBarView : Type := {
  isDeleteButtonHidden : bool;
  isMoveButtonDisabled : bool
}.

Definition setIsDeleteButtonHidden (b : bool) (v : ControlBarView) : ControlBarView :=
  {| isDeleteButtonHidden := b; isMoveButtonDisabled := isMoveButtonDisabled v |}.

Definition setIsMoveButtonDisabled (b : bool) (v : ControlBarView) : ControlBarView :=
  {| isDeleteButtonHidden := isDeleteButtonHidden v; isMoveButtonDisabled := b |}.

(** What the handlers read from the designer context: whether a step is
    selected and the readonly flag. *)
Record ContextState : Type := {
  hasSelectedStep : bool;
  isReadonly : bool
}.

Definition refreshDeleteButtonVisibility (context : ContextState)
    (v : ControlBarView) : ControlBarView :=
  let isHidden := negb (hasSelectedStep context) || isReadonly context in
  setIsDeleteButtonHidden isHidden v.

Definition onIsReadonlyChanged (context : ContextState) (v : ControlBarView) :=
  refreshDeleteButtonVisibility context v.

Definition onSelectedStepChanged (context : ContextState) (v : ControlBarView) :=
  refreshDeleteButtonVisibility context v.

Definition onIsMoveModeEnabledChanged (isEnabled : bool) (v : ControlBarView) :=
  setIsMoveButtonDisabled (negb isEnabled) v.

(** The notifications [ControlBar.create] subscribes to, each with the
    state of the context at the time it is forwarded. *)
Inductive Notification : Type :=
| IsReadonlyChanged (context : ContextState)
| SelectedStepChanged (context : ContextState)
| IsMoveModeEnabledChanged (isEnabled : bool).

Definition notify (n : Notification) (v : ControlBarView) : ControlBarView :=
  match n with
  | IsReadonlyChanged context => onIsReadonlyChanged context v
  | SelectedStepChanged context => onSelectedStepChanged context v
  | IsMoveModeEnabledChanged isEnabled => onIsMoveModeEnabledChanged isEnabled v
  end.

Definition notifies (ns : list Notification) (v : ControlBarView) : ControlBarView :=
  foldl (fun v n => notify n v) v ns.

(** The context of the last notification that refreshes the delete
    button, and the value of the last move-mode notification. *)
Definition lastRefresh (ns : list Notification) : option ContextState :=
  last (omap (fun n => match n with
                       | IsReadonlyChanged c | SelectedStepChanged c => Some c
                       | IsMoveModeEnabledChanged _ => None
                       end) ns).

Definition lastMoveMode (ns : list Notification) : option bool :=
  last (omap (fun n => match n with
                       | IsMoveModeEnabledChanged b => Some b
                       | _ => None
                       end) ns).

End ControlBarButtons.

(** ** More of the small designer *)

Module SampleRuns.

Import Workspace.

(** The sample workspace zoomed in as far as it goes: scale 3. *)
Definition zoomed_in : @Workspace Sample.rendering :=
  @onWheels Sample.rendering (replicate 25 Sample.wheel_in) Sample.rendered.

Definition inputs : list ToolboxRuns.Input :=
  [ToolboxRuns.Mousedown {| Toolbox.button := 0; Toolbox.pageX := 5; Toolbox.pageY := 6 |};
   ToolboxRuns.Mousedown {| Toolbox.button := 2; Toolbox.pageX := 5; Toolbox.pageY := 6 |};
   ToolboxRuns.Touchstart {| Toolbox.touches := [Vector.new 7 8; Vector.new 9 9] |};
   ToolboxRuns.Touchstart {| Toolbox.touches := [Vector.new 7 8] |}].

End SampleRuns.

(** * Properties *)

(** ** JavaScript arrays *)

Section JsFacts.
Context `{EqDecision A}.
Implicit Types (l : list A) (a : A).

Lemma indexOf_range l a :
  Js.indexOf l a = -1 \/ 0 <= Js.indexOf l a < Z.of_nat (length l).
Proof.
  induction l as [|b l IH]; simpl; [by left|].
  destruct (decide (b = a)); [right; lia|].
  destruct (decide (Js.indexOf l a = -1)); [by left|right; lia].
Qed.

Lemma indexOf_absent l a : a ∉ l -> Js.indexOf l a = -1.
Proof.
  induction l as [|b l IH]; simpl; [done|].
  intros [Hne Hnin]%not_elem_of_cons.
  destruct (decide (b = a)); [congruence|].
  rewrite IH by done. by rewrite decide_True.
Qed.

(** On a member, [indexOf] is the first position that holds it. *)
Lemma indexOf_present l a :
  a ∈ l ->
  exists i : nat,
    Js.indexOf l a = Z.of_nat i /\ l !! i = Some a /\
    forall j : nat, (j < i)%nat -> l !! j ≠ Some a.
Proof.
  induction l as [|b l IH]; [by intros ?%elem_of_nil|].
  intros Hin. simpl. destruct (decide (b = a)) as [->|Hne].
  - exists 0%nat. split; [done|]. split; [done|]. intros j Hj. lia.
  - apply elem_of_cons in Hin as [?|Hin]; [congruence|].
    destruct (IH Hin) as (i & Hi & Hl & Hfirst).
    exists (S i). rewrite Hi. rewrite decide_False by lia.
    split; [lia|]. split; [done|].
    intros [|j] Hj; simpl; [congruence|]. apply Hfirst. lia.
Qed.

(** [splice(i, 1)] at a position of the array deletes that position. *)
Lemma splice_one_at l (i : nat) :
  (i < length l)%nat -> Js.splice (Z.of_nat i) 1 l = delete i l.
Proof.
  intros Hi. unfold Js.splice. rewrite decide_False by lia.
  replace (Z.to_nat (Z.min (Z.of_nat i) (Z.of_nat (length l)))) with i by lia.
  replace (Z.to_nat (_ + _)) with (S i) by lia.
  revert i Hi. induction l as [|b l IH]; intros [|i] Hi; simpl in *;
    try lia; [by rewrite drop_0|].
  f_equal. apply IH. lia.
Qed.

(** [splice(-1, 1)] drops the last element. *)
Lemma splice_minus_one l : Js.splice (-1) 1 l = removelast l.
Proof.
  unfold Js.splice. rewrite decide_True by lia.
  destruct (decide (l = [])) as [->|Hne]; [done|].
  assert (0 < length l)%nat by (destruct l; simpl; [done|lia]).
  replace (Z.to_nat (Z.max _ 0)) with (length l - 1)%nat by lia.
  replace (Z.to_nat (_ + _)) with (length l) by lia.
  rewrite drop_all, app_nil_r.
  clear Hne. induction l as [|b [|c l] IH]; simpl in *; [lia|done|].
  f_equal. rewrite <- IH by lia. simpl. by rewrite Nat.sub_0_r.
Qed.

End JsFacts.

(** ** The viewport: wheel zoom and centering *)

Section ViewportFacts.
Import Workspace.
Context `{Components}.
Implicit Types (w : Workspace) (e : WheelEvent) (p : Vector.t).

Local Open Scope Q_scope.

Lemma newScale_bounds e w : 1 # 10 <= newScale e w /\ newScale e w <= 3.
Proof.
  unfold newScale. split.
  - apply Q.min_glb; [apply Q.le_max_r | discriminate].
  - apply Q.le_min_r.
Qed.

Lemma newScale_clamped e w :
  newScale e w == spec_clamped_scale (scale w) (wheelDelta e).
Proof.
  unfold newScale, spec_clamped_scale.
  set (v := scale w + wheelDelta e).
  destruct (Qlt_le_dec v (1 # 10)) as [Hlo|Hlo].
  - rewrite (Q.max_r v (1 # 10)) by (apply Qlt_le_weak, Hlo).
    apply Q.min_l. discriminate.
  - rewrite (Q.max_l v (1 # 10)) by exact Hlo.
    destruct (Qlt_le_dec 3 v) as [Hhi|Hhi].
    + apply Q.min_r, Qlt_le_weak, Hhi.
    + apply Q.min_l, Hhi.
Qed.

Lemma onWheel_scale e w : scale (onWheel e w) = newScale e w.
Proof. reflexivity. Qed.

Lemma onWheels_snoc es e w : onWheels (es ++ [e]) w = onWheel e (onWheels es w).
Proof. unfold onWheels. by rewrite foldl_app. Qed.

(** The arithmetic of the anchored zoom, on one coordinate. *)
Lemma anchored_coordinate (a b s m : Q) : a == b -> a * s + (b * - s + m) == m.
Proof. intros ->. ring. Qed.

(** C1.  Zoom to cursor.  A wheel event sets the position to
    [-mouseRealPoint * newScale + mousePoint], where [mouseRealPoint =
    mousePoint / scale - position / scale]; hence [mouseRealPoint *
    newScale + newPosition] is [mousePoint], and every canvas point [p]
    that the old transform drew under the cursor is [mouseRealPoint]
    and is drawn under the cursor by the new transform too (the old
    scale being non-zero, as it is within [0.1, 3.0]). *)
Theorem onWheel_keeps_point_under_cursor e w p :
  ~ scale w == 0 ->
  screenPoint w p =v= mousePoint e w ->
  let w' := onWheel e w in
  position w' =
    Vector.add (Vector.multiplyByScalar (mouseRealPoint e w) (- newScale e w))
               (mousePoint e w) /\
  scale w' = newScale e w /\
  foreground (view w') = Some (position w', scale w') /\
  Vector.add (Vector.multiplyByScalar (mouseRealPoint e w) (newScale e w))
             (position w') =v= mousePoint e w /\
  p =v= mouseRealPoint e w /\
  screenPoint w' p =v= mousePoint e w'.
Proof.
  intros Hs [Hx Hy]. cbv zeta.
  assert (Hp : p =v= mouseRealPoint e w).
  { revert Hx Hy. unfold Vector.equiv, mouseRealPoint, screenPoint. simpl.
    intros <- <-. split; field; exact Hs. }
  repeat split; try reflexivity; try apply Hp.
  - simpl. ring.
  - simpl. ring.
  - apply anchored_coordinate, Hp.
  - apply anchored_coordinate, Hp.
Qed.

(** C4.  The scale after a wheel event is the old scale plus 0.1 (when
    [deltaY <= 0]) or minus 0.1 (when [deltaY > 0]), clamped to
    [0.1, 3.0]: it depends on the sign of [deltaY] only, and from a
    starting scale in [0.1, 3.0] the scale lies in [0.1, 3.0] after
    one event and after any number of them. *)
Theorem onWheel_scale_clamped e w :
  1 # 10 <= scale w /\ scale w <= 3 ->
  let s' := scale (onWheel e w) in
  (0 < deltaY e -> s' == spec_clamped_scale (scale w) (- (1 # 10))) /\
  (deltaY e <= 0 -> s' == spec_clamped_scale (scale w) (1 # 10)) /\
  (1 # 10 <= s' /\ s' <= 3) /\
  (forall es, 1 # 10 <= scale (onWheels es w) /\ scale (onWheels es w) <= 3).
Proof.
  intros Hstart. cbv zeta. rewrite onWheel_scale.
  split; [|split; [|split]].
  - intros Hd. rewrite newScale_clamped. unfold wheelDelta.
    destruct (Qlt_le_dec 0 (deltaY e)) as [_|Hle]; [reflexivity|].
    exfalso. exact (Qlt_not_le _ _ Hd Hle).
  - intros Hd. rewrite newScale_clamped. unfold wheelDelta.
    destruct (Qlt_le_dec 0 (deltaY e)) as [Hlt|_]; [|reflexivity].
    exfalso. exact (Qlt_not_le _ _ Hlt Hd).
  - apply newScale_bounds.
  - intros es. destruct es as [|e' es _] using rev_ind; [exact Hstart|].
    rewrite onWheels_snoc, onWheel_scale. apply newScale_bounds.
Qed.

(** C10.  With a rendered main component, [center] sets the scale to 1
    and the position to the centering offsets [(size - component
    size) / 2] raised to at least 0 (x) and at least 20 (y), writes
    them to the view and forwards the viewport notification. *)
Theorem center_sets_viewport w mc :
  mainComponent w = Some mc ->
  let w' := center w in
  let offset_x := (Vector.x (getSize (view w)) - width (componentView mc)) / 2 in
  let offset_y := (Vector.y (getSize (view w)) - height (componentView mc)) / 2 in
  scale w' = 1 /\
  0 <= Vector.x (position w') /\
  20 <= Vector.y (position w') /\
  Vector.x (position w') == (if Qlt_le_dec offset_x 0 then 0 else offset_x) /\
  Vector.y (position w') == (if Qlt_le_dec offset_y 20 then 20 else offset_y) /\
  foreground (view w') = Some (position w', 1) /\
  forwarded w' = forwarded w ++ [onViewPortChanged].
Proof.
  intros Hmc. cbv zeta. unfold center. rewrite Hmc. simpl.
  repeat split.
  - apply Q.le_max_l.
  - apply Q.le_max_l.
  - destruct (Qlt_le_dec _ 0) as [Hlt|Hle].
    + apply Q.max_l, Qlt_le_weak, Hlt.
    + apply Q.max_r, Hle.
  - destruct (Qlt_le_dec _ 20) as [Hlt|Hle].
    + apply Q.max_l, Qlt_le_weak, Hlt.
    + apply Q.max_r, Hle.
Qed.

End ViewportFacts.

(** ** Selection *)

Section SelectionFacts.
Import Workspace.
Context `{Components}.
Implicit Types (w : Workspace) (c a b : nat) (comp : StepComponent).

Lemma setState_Some w c s comp :
  components w !! c = Some comp ->
  setState c s w =
    Some (with_components
            (<[c := {| step := step comp;
                       parentSequence := parentSequence comp;
                       state := s |}]> (components w)) w).
Proof. intros Hc. unfold setState. by rewrite Hc. Qed.

Lemma stateOf_Some w c s :
  stateOf w c = Some s <->
  exists comp, components w !! c = Some comp /\ state comp = s.
Proof.
  unfold stateOf. destruct (components w !! c) as [comp|]; simpl.
  - split; [intros [= <-]; eauto|]. by intros (? & [= <-] & <-).
  - split; [done|]. by intros (? & ? & _).
Qed.

Lemma stateOf_allocated w c : is_Some (stateOf w c) <-> is_Some (components w !! c).
Proof. unfold stateOf. by rewrite fmap_is_Some. Qed.

(** [setState] changes the state of one component and nothing else. *)
Lemma setState_spec w c s :
  is_Some (components w !! c) ->
  exists w',
    setState c s w = Some w' /\
    (forall b, stateOf w' b = if decide (b = c) then Some s else stateOf w b) /\
    (forall b, b ≠ c -> components w' !! b = components w !! b) /\
    (forall b, step <$> components w' !! b = step <$> components w !! b) /\
    w' = with_components (components w') w.
Proof.
  intros [comp Hc]. rewrite (setState_Some _ _ _ _ Hc).
  eexists. split; [reflexivity|]. simpl. repeat split.
  - intros b. unfold stateOf. simpl. case_decide as Hb.
    + subst b. by rewrite lookup_insert_eq.
    + by rewrite lookup_insert_ne.
  - intros b Hb. by rewrite lookup_insert_ne.
  - intros b. destruct (decide (c = b)) as [<-|Hb].
    + by rewrite lookup_insert_eq, Hc.
    + by rewrite lookup_insert_ne.
Qed.

Lemma selectedCount_consistent w :
  selection_consistent w ->
  selectedCount w = match selectedStep w with Some _ => 1%nat | None => 0%nat end.
Proof.
  intros Hsel. unfold selectedCount.
  assert (Hiff : forall c comp, components w !! c = Some comp ->
            state comp = selected <-> selectedStep w = Some c).
  { intros c comp Hc. split.
    - intros Hst. apply Hsel, stateOf_Some. eauto.
    - intros (comp' & Hc' & Hst)%Hsel%stateOf_Some. congruence. }
  destruct (selectedStep w) as [a|] eqn:Ha.
  - destruct (proj1 (stateOf_Some w a selected)) as (comp & Hcomp & Hst);
      [by apply Hsel|].
    rewrite <- (map_size_singleton (M := gmap nat) a comp). f_equal.
    apply map_eq. intros c. destruct (decide (a = c)) as [<-|Hne].
    + rewrite lookup_singleton_eq. by apply map_lookup_filter_Some_2.
    + rewrite lookup_singleton_ne by done. apply map_lookup_filter_None_2.
      right. intros comp' Hc'. simpl. rewrite (Hiff _ _ Hc'). congruence.
  - apply map_size_empty_iff, map_empty. intros c.
    apply map_lookup_filter_None_2. right. intros comp' Hc'. simpl.
    rewrite (Hiff _ _ Hc'). congruence.
Qed.

(** What [selectStep] does when the references it follows are live. *)
Lemma selectStep_spec w b compb :
  (forall a, selectedStep w = Some a -> is_Some (components w !! a)) ->
  components w !! b = Some compb ->
  exists w',
    selectStep b w = Some w' /\
    selectedStep w' = Some b /\
    (forall c, stateOf w' c =
               if decide (c = b) then Some selected
               else if decide (selectedStep w = Some c) then Some default
               else stateOf w c) /\
    forwarded w' = forwarded w ++ [onSelectedStepChanged (Some (step compb))].
Proof.
  intros Halloc Hb. unfold selectStep.
  destruct (selectedStep w) as [a|] eqn:Ha.
  - destruct (setState_spec w a default (Halloc a eq_refl))
      as (w1 & -> & Hst1 & _ & Hstep1 & Hw1). simpl.
    destruct (setState_spec (with_selectedStep (Some b) w1) b selected)
      as (w2 & -> & Hst2 & _ & Hstep2 & Hw2).
    { apply stateOf_allocated. unfold stateOf. simpl.
      fold (stateOf w1 b). rewrite Hst1. case_decide; [eauto|].
      apply stateOf_allocated. eauto. }
    simpl. specialize (Hstep2 b). specialize (Hstep1 b). simpl in Hstep2.
    rewrite Hstep1, Hb in Hstep2.
    destruct (components w2 !! b) as [comp2|]; [|done]. simpl.
    injection Hstep2 as Hstep2. rewrite Hstep2.
    eexists. split; [reflexivity|].
    split; [by rewrite Hw2|]. split; [|by rewrite Hw2, Hw1].
    intros c. change (stateOf (forward _ w2) c) with (stateOf w2 c).
    rewrite Hst2. case_decide; [done|].
    change (stateOf (with_selectedStep _ w1) c) with (stateOf w1 c).
    rewrite Hst1. case_decide as Hca; [subst c; by rewrite decide_True|].
    rewrite decide_False by congruence. done.
  - simpl.
    destruct (setState_spec (with_selectedStep (Some b) w) b selected)
      as (w2 & -> & Hst2 & _ & Hstep2 & Hw2); [simpl; eauto|].
    simpl. specialize (Hstep2 b). simpl in Hstep2. rewrite Hb in Hstep2.
    destruct (components w2 !! b) as [comp2|]; [|done]. simpl.
    injection Hstep2 as Hstep2. rewrite Hstep2.
    eexists. split; [reflexivity|].
    split; [by rewrite Hw2|]. split; [|by rewrite Hw2].
    intros c. change (stateOf (forward _ w2) c) with (stateOf w2 c).
    rewrite Hst2. by case_decide.
Qed.

(** What [clearSelectedStep] does when the selected reference is live. *)
Lemma clearSelectedStep_spec w :
  (forall a, selectedStep w = Some a -> is_Some (components w !! a)) ->
  exists w',
    clearSelectedStep w = Some w' /\
    selectedStep w' = None /\
    (forall c, stateOf w' c =
               if decide (selectedStep w = Some c) then Some default
               else stateOf w c) /\
    sequences w' = sequences w /\
    sequence w' = sequence w /\
    forwarded w' =
      forwarded w ++ match selectedStep w with
                     | Some _ => [onSelectedStepChanged None]
                     | None => []
                     end.
Proof.
  intros Halloc. unfold clearSelectedStep.
  destruct (selectedStep w) as [a|] eqn:Ha.
  - destruct (setState_spec w a default (Halloc a eq_refl))
      as (w1 & -> & Hst1 & _ & _ & Hw1). simpl.
    eexists. split; [reflexivity|]. split; [done|].
    split; [|by rewrite Hw1]. intros c.
    change (stateOf (forward _ (with_selectedStep _ w1)) c) with (stateOf w1 c).
    rewrite Hst1. case_decide as Hca.
    + subst c. by rewrite decide_True.
    + rewrite decide_False by congruence. done.
  - exists w. rewrite Ha, app_nil_r. by repeat split.
Qed.

Lemma selection_consistentb_sound w :
  selection_consistentb w = true -> selection_consistent w.
Proof.
  intros Hb%bool_decide_eq_true c.
  assert (Hkeys : stateOf w c = Some selected <->
            c ∈ (map_to_list (filter (fun kv => state kv.2 = selected)
                                     (components w))).*1).
  { rewrite stateOf_Some, list_elem_of_fmap. split.
    - intros (comp & Hc & Hst). exists (c, comp). split; [done|].
      apply elem_of_map_to_list. by apply map_lookup_filter_Some_2.
    - intros ([c' comp] & -> & Hin%elem_of_map_to_list).
      apply map_lookup_filter_Some in Hin as [Hc Hst]. eauto. }
  rewrite Hkeys, Hb. destruct (selectedStep w) as [a|].
  - rewrite list_elem_of_singleton. split; congruence.
  - split; [by intros ?%elem_of_nil|done].
Qed.

Lemma consistent_allocated w a :
  selection_consistent w -> selectedStep w = Some a -> is_Some (components w !! a).
Proof.
  intros Hsel Ha. apply stateOf_allocated. apply Hsel in Ha. rewrite Ha. eauto.
Qed.

Lemma selectStep_consistent w b :
  selection_consistent w ->
  is_Some (components w !! b) ->
  exists w',
    selectStep b w = Some w' /\
    selection_consistent w' /\
    selectedStep w' = Some b /\
    stateOf w' b = Some selected /\
    (forall a, selectedStep w = Some a -> a ≠ b -> stateOf w' a = Some default) /\
    (forall c, is_Some (components w' !! c) <-> is_Some (components w !! c)).
Proof.
  intros Hsel Hb. destruct (Hb) as [compb Hcompb].
  destruct (selectStep_spec w b compb) as (w' & Hrun & Hs & Hst & _);
    [intros a; by apply consistent_allocated|done|].
  exists w'. split; [done|].
  split; [|split; [done|split; [|split]]].
  - intros c. rewrite Hst, Hs. case_decide as Hc; [by subst|].
    case_decide as Hc'; [split; congruence|].
    split; [intros Hx%Hsel; done|congruence].
  - rewrite Hst. by rewrite decide_True.
  - intros a Ha Hne. rewrite Hst, decide_False, decide_True by done. done.
  - intros c. rewrite <- !stateOf_allocated, Hst.
    case_decide as Hc;
      [subst; rewrite <- stateOf_allocated in Hb; split; eauto|].
    case_decide as Hc'; [|done].
    apply Hsel in Hc'. rewrite Hc'. split; eauto.
Qed.

Lemma clearSelectedStep_consistent w :
  selection_consistent w ->
  exists w',
    clearSelectedStep w = Some w' /\
    selection_consistent w' /\
    selectedStep w' = None /\
    (forall c, is_Some (components w' !! c) <-> is_Some (components w !! c)).
Proof.
  intros Hsel.
  destruct (clearSelectedStep_spec w) as (w' & Hrun & Hs & Hst & _);
    [intros a; by apply consistent_allocated|].
  exists w'. split; [done|]. split; [|split; [done|]].
  - intros c. rewrite Hst, Hs. case_decide as Hc; [split; congruence|].
    split; [intros Hx%Hsel; done|congruence].
  - intros c. rewrite <- !stateOf_allocated, Hst. case_decide as Hc; [|done].
    apply Hsel in Hc. rewrite Hc. split; eauto.
Qed.

Lemma calls_consistent ks : forall w,
  selection_consistent w ->
  Forall (fun c => is_Some (components w !! c)) (selects ks) ->
  exists w', calls ks w = Some w' /\ selection_consistent w'.
Proof.
  induction ks as [|k ks IH]; intros w Hsel Hks; [by exists w|].
  simpl. destruct k as [c|]; simpl in *.
  - apply Forall_cons in Hks as [Hc Hks].
    destruct (selectStep_consistent w c Hsel Hc) as (w1 & -> & Hsel1 & _ & _ & _ & Hdom).
    simpl. apply IH; [done|]. eapply Forall_impl; [exact Hks|].
    intros c'. simpl. by rewrite Hdom.
  - destruct (clearSelectedStep_consistent w Hsel) as (w1 & -> & Hsel1 & _ & Hdom).
    simpl. apply IH; [done|]. eapply Forall_impl; [exact Hks|].
    intros c'. simpl. by rewrite Hdom.
Qed.

(** C3.  From a workspace with a consistent selection, [selectStep b]
    puts [b] in the [selected] state and the previously selected
    component, if another, back in the [default] state; and any run of
    [selectStep] and [clearSelectedStep] calls ends in a workspace in
    which the components in the [selected] state are exactly the
    selected one: their number is one or zero, never more. *)
Theorem selection_is_exclusive w b ks :
  selection_consistent w ->
  is_Some (components w !! b) ->
  Forall (fun c => is_Some (components w !! c)) (selects ks) ->
  (exists w',
     selectStep b w = Some w' /\
     stateOf w' b = Some selected /\
     (forall a, selectedStep w = Some a -> a ≠ b -> stateOf w' a = Some default) /\
     selectedCount w' = 1%nat) /\
  (exists w',
     calls ks w = Some w' /\
     selectedCount w' =
       match selectedStep w' with Some _ => 1%nat | None => 0%nat end /\
     (selectedCount w' <= 1)%nat /\
     (forall c1 c2, stateOf w' c1 = Some selected ->
                    stateOf w' c2 = Some selected -> c1 = c2)).
Proof.
  intros Hsel Hb Hks. split.
  - destruct (selectStep_consistent w b Hsel Hb)
      as (w' & Hrun & Hsel' & Hs & Hstb & Hprev & _).
    exists w'. repeat split; try done.
    by rewrite (selectedCount_consistent w' Hsel'), Hs.
  - destruct (calls_consistent ks w Hsel Hks) as (w' & Hrun & Hsel').
    exists w'. split; [done|].
    rewrite (selectedCount_consistent w' Hsel'). repeat split.
    + destruct (selectedStep w'); lia.
    + intros c1 c2 H1%Hsel' H2%Hsel'. congruence.
Qed.

End SelectionFacts.

(** ** Removal of the selected step *)

Section RemovalFacts.
Import Workspace.
Context `{Components}.
Implicit Types (w : Workspace) (a : nat) (comp : StepComponent)
  (steps : list nat).

Lemma render_fields w :
  sequences (render w) = sequences w /\
  selectedStep (render w) = selectedStep w /\
  forwarded (render w) = forwarded w /\
  behaviorController (render w) = behaviorController w /\
  is_Some (mainComponent (render w)).
Proof. unfold render. destruct (create _ _ _) as [mc comps]. simpl. eauto 10. Qed.

(** [notifyChanged] clears the selection, renders and forwards
    [onChanged]; the sequences are not touched. *)
Lemma notifyChanged_spec w :
  (forall a, selectedStep w = Some a -> is_Some (components w !! a)) ->
  exists w',
    notifyChanged w = Some w' /\
    selectedStep w' = None /\
    sequences w' = sequences w /\
    is_Some (mainComponent w') /\
    forwarded w' =
      forwarded w ++ match selectedStep w with
                     | Some _ => [onSelectedStepChanged None; onChanged]
                     | None => [onChanged]
                     end.
Proof.
  intros Halloc. unfold notifyChanged.
  destruct (clearSelectedStep_spec w Halloc)
    as (w1 & -> & Hs & _ & Hseqs & _ & Hfw).
  simpl. eexists. split; [reflexivity|]. simpl.
  destruct (render_fields w1) as (-> & -> & -> & _ & Hmc).
  rewrite Hfw, <- app_assoc. by destruct (selectedStep w).
Qed.

(** The run of [removeSelectedStep] on a selected, live component whose
    parent sequence is live. *)
Lemma removeSelectedStep_spec w a comp steps :
  selectedStep w = Some a ->
  components w !! a = Some comp ->
  sequences w !! parentSequence comp = Some steps ->
  exists w',
    removeSelectedStep w = Some w' /\
    sequences w' =
      <[parentSequence comp := Js.splice (Js.indexOf steps (step comp)) 1 steps]>
        (sequences w) /\
    selectedStep w' = None /\
    forwarded w' = forwarded w ++ [onSelectedStepChanged None; onChanged].
Proof.
  intros Ha Hcomp Hsteps. unfold removeSelectedStep.
  rewrite Ha, Hcomp. simpl. rewrite Hsteps. simpl.
  match goal with |- context [notifyChanged ?x] =>
    destruct (notifyChanged_spec x) as (w' & -> & Hs & Hseqs & _ & Hfw)
  end.
  { simpl. intros a' Ha'. rewrite Ha in Ha'. injection Ha' as <-. eauto. }
  simpl in *. rewrite Ha in Hfw. by exists w'.
Qed.

(** C2.  When the selected step occurs in its parent sequence,
    [removeSelectedStep] deletes from that sequence the entry at the
    first index holding the step and nothing else (the entries before
    keep their index, those after move down by one, the other
    sequences are untouched), clears the selection and forwards the
    change notification. *)
Theorem removeSelectedStep_removes_selected w a comp steps :
  selectedStep w = Some a ->
  components w !! a = Some comp ->
  sequences w !! parentSequence comp = Some steps ->
  step comp ∈ steps ->
  exists w' (i : nat),
    removeSelectedStep w = Some w' /\
    Js.indexOf steps (step comp) = Z.of_nat i /\
    steps !! i = Some (step comp) /\
    sequences w' = <[parentSequence comp := delete i steps]> (sequences w) /\
    (length (delete i steps) + 1 = length steps)%nat /\
    (forall j : nat, (j < i)%nat -> delete i steps !! j = steps !! j) /\
    (forall j : nat, (i <= j)%nat -> delete i steps !! j = steps !! S j) /\
    (forall q, q ≠ parentSequence comp -> sequences w' !! q = sequences w !! q) /\
    selectedStep w' = None /\
    forwarded w' = forwarded w ++ [onSelectedStepChanged None; onChanged].
Proof.
  intros Ha Hcomp Hsteps Hin.
  destruct (removeSelectedStep_spec w a comp steps Ha Hcomp Hsteps)
    as (w' & Hrun & Hseqs & Hs & Hfw).
  destruct (indexOf_present steps (step comp) Hin) as (i & Hi & Hl & _).
  assert (Hlt : (i < length steps)%nat) by (eapply lookup_lt_Some; eauto).
  rewrite Hi, splice_one_at in Hseqs by done.
  exists w', i. repeat split; try done.
  - rewrite length_delete by eauto. lia.
  - intros j Hj. by apply list_lookup_delete_lt.
  - intros j Hj. by apply list_lookup_delete_ge.
  - intros q Hq. rewrite Hseqs. by rewrite lookup_insert_ne.
Qed.

(** C9.  When the selected step does not occur in its recorded parent
    sequence, [indexOf] gives [-1] and [splice(-1, 1)] removes the last
    entry of that sequence, whatever step it is; only an empty
    sequence is left as it was. *)
Theorem removeSelectedStep_absent_removes_last w a comp steps :
  selectedStep w = Some a ->
  components w !! a = Some comp ->
  sequences w !! parentSequence comp = Some steps ->
  step comp ∉ steps ->
  Js.indexOf steps (step comp) = -1 /\
  exists w',
    removeSelectedStep w = Some w' /\
    sequences w' = <[parentSequence comp := removelast steps]> (sequences w) /\
    (forall rest last, steps = rest ++ [last] ->
       sequences w' !! parentSequence comp = Some rest /\ last ≠ step comp) /\
    (steps = [] -> sequences w' !! parentSequence comp = Some []).
Proof.
  intros Ha Hcomp Hsteps Hnin.
  pose proof (indexOf_absent steps (step comp) Hnin) as Hi.
  split; [done|].
  destruct (removeSelectedStep_spec w a comp steps Ha Hcomp Hsteps)
    as (w' & Hrun & Hseqs & _).
  rewrite Hi, splice_minus_one in Hseqs.
  exists w'. split; [done|]. split; [done|]. split.
  - intros rest last ->. rewrite Hseqs, lookup_insert_eq, removelast_last.
    split; [done|]. intros ->. apply Hnin. set_solver.
  - intros ->. by rewrite Hseqs, lookup_insert_eq.
Qed.

Local Ltac behavior_cases :=
  repeat split; intros;
  repeat match goal with
    | H : _ /\ _ |- _ => destruct H
    | H : ex _ |- _ => destruct H
    | H : is_Some _ |- _ => destruct H
    end;
  try congruence; try tauto; eauto;
  try solve [exfalso;
             match goal with H : ~ _ |- _ => apply H; repeat split; eauto end].

(** C5.  With the main component rendered, a mouse-down passes exactly
    one behavior to the behavior controller: the select-step behavior
    (for the component hit) exactly when the button is not the middle
    one, the workspace is not readonly and the target hit-tests to a
    step component; the move-viewport behavior, from the current
    position, in every other case. *)
Theorem onMouseDown_starts_behavior (e : MouseEvent) w mc :
  mainComponent w = Some mc ->
  let hit := findStepComponent mc (target e) in
  let selecting := button e ≠ 1 /\ isReadonly w = false /\ is_Some hit in
  exists b,
    onMouseDown e w = start e b w /\
    behaviorController (onMouseDown e w) = behaviorController w ++ [(e, b)] /\
    ((exists c, b = SelectStepBehavior c) <-> selecting) /\
    (selecting -> exists c, hit = Some c /\ b = SelectStepBehavior c) /\
    (~ selecting -> b = MoveViewPortBehavior (position w)).
Proof.
  intros Hmc. cbv zeta. unfold onMouseDown. rewrite Hmc.
  destruct (Z.eqb_spec (button e) 1) as [Hb|Hb]; simpl.
  - exists (MoveViewPortBehavior (position w)). behavior_cases.
  - destruct (isReadonly w); simpl.
    + exists (MoveViewPortBehavior (position w)). behavior_cases.
    + destruct (findStepComponent mc (target e)) as [c|] eqn:Hhit.
      * exists (SelectStepBehavior c). behavior_cases.
      * exists (MoveViewPortBehavior (position w)). behavior_cases.
Qed.

End RemovalFacts.

(** ** The toolbox item *)

Section ToolboxFacts.
Import Toolbox.
Implicit Types (d : Designer) (item : ToolboxItem) (s template : Step).

(** The structural copy yields an equal value. *)
Lemma copy_eq : forall s, copy s = s.
Proof.
  fix IH 1. intros [i t n p q]. simpl. f_equal.
  - induction p as [|[k v] p IHp]; simpl; [done|by rewrite IHp].
  - destruct q as [steps|]; [|done]. f_equal.
    induction steps as [|s steps IHs]; simpl; [done|]. by rewrite IH, IHs.
Qed.

Lemma Uid_next_fresh n : (Uid.next n).1 ∉ Uid.issued n.
Proof.
  unfold Uid.next, Uid.issued. simpl.
  intros (m & Heq & Hm)%list_elem_of_fmap.
  apply (inj pretty) in Heq. subst m. apply elem_of_seq in Hm. lia.
Qed.

Lemma Uid_next_issued n :
  Uid.issued (Uid.next n).2 = Uid.issued n ++ [(Uid.next n).1].
Proof.
  unfold Uid.next, Uid.issued. cbn [fst snd]. by rewrite seq_S, fmap_app.
Qed.

(** [createStep] on a live template. *)
Lemma createStep_spec d r template :
  objects d !! r = Some template ->
  let newStep := fresh (dom (objects d)) in
  let i := (Uid.next (uid d)).1 in
  objects d !! newStep = None /\
  createStep r d =
    Some (newStep,
          with_objects (<[newStep := set_id i template]> (objects d))
                       (with_uid (Uid.next (uid d)).2 d)).
Proof.
  intros Hr. cbv zeta.
  assert (Hfresh : objects d !! fresh (dom (objects d)) = None).
  { apply not_elem_of_dom, is_fresh. }
  split; [done|]. unfold createStep, deepClone. rewrite Hr. simpl.
  rewrite lookup_insert_eq. simpl. rewrite insert_insert_eq, copy_eq. done.
Qed.

Lemma startDrag_spec item d template position :
  isReadonly d = false ->
  objects d !! step item = Some template ->
  exists d', startDrag item position d = Some d' /\
             drag_started template position d d'.
Proof.
  intros Hro Htpl. unfold startDrag. rewrite Hro. simpl.
  destruct (createStep_spec d (step item) template Htpl) as [Hfresh ->].
  simpl. eexists. split; [reflexivity|].
  exists (fresh (dom (objects d))), (Uid.next (uid d)).1. simpl.
  split; [done|]. split; [apply Uid_next_fresh|].
  split; [apply Uid_next_issued|]. split; [done|].
  rewrite lookup_insert_eq. simpl. do 5 (split; [done|]). split; [|done].
  intros r s Hr. rewrite lookup_insert_ne; [done|]. congruence.
Qed.

Lemma startDrag_readonly item d position :
  isReadonly d = true -> startDrag item position d = Some d.
Proof. intros Hro. unfold startDrag. by rewrite Hro. Qed.

(** C6.  While the designer is readonly, a drag start changes nothing:
    [startDrag], and with it the mouse-down and touch-start handlers,
    leave the designer as it was: no object is cloned, no ID is
    issued and no start request reaches the behavior controller. *)
Theorem toolbox_readonly_starts_nothing item d :
  isReadonly d = true ->
  (forall position, startDrag item position d = Some d) /\
  (forall e, exists flags, onMousedown item e d = Some (flags, d)) /\
  (forall e, exists flags, onTouchstart item e d = Some (flags, d)).
Proof.
  intros Hro. split; [|split].
  - intros position. by apply startDrag_readonly.
  - intros e. unfold onMousedown.
    destruct (button e =? 0); [|eauto].
    rewrite startDrag_readonly by done. simpl. eauto.
  - intros e. unfold onTouchstart, readTouchPosition.
    case_decide as Hlen; [|eauto].
    destruct (touches e) as [|p ps]; [done|]. simpl.
    rewrite startDrag_readonly by done. simpl. eauto.
Qed.

(** C7.  On a designer that is not readonly, a mouse-down with the
    primary button and a touch-start with exactly one touch clone the
    template into a new object (same type, name, properties and
    sequence), set the [id] of the clone to an ID never issued before,
    leave the template as it was, and ask the behavior controller to
    start a drag-step behavior for the clone at the pointer position;
    a mouse-down with another button and a touch-start with another
    number of touches leave the designer as it was. *)
Theorem toolbox_drag_start item d template :
  isReadonly d = false ->
  objects d !! step item = Some template ->
  (forall e, button e = 0 ->
     exists flags d',
       onMousedown item e d = Some (flags, d') /\
       drag_started template (readMousePosition e) d d' /\
       objects d' !! step item = Some template) /\
  (forall e, button e ≠ 0 ->
     exists flags, onMousedown item e d = Some (flags, d)) /\
  (forall e p, touches e = [p] ->
     exists flags d',
       onTouchstart item e d = Some (flags, d') /\
       drag_started template p d d' /\
       objects d' !! step item = Some template) /\
  (forall e, length (touches e) ≠ 1%nat ->
     exists flags, onTouchstart item e d = Some (flags, d)).
Proof.
  intros Hro Htpl. split; [|split; [|split]].
  - intros e He. unfold onMousedown. rewrite He. simpl.
    destruct (startDrag_spec item d template (readMousePosition e) Hro Htpl)
      as (d' & -> & Hdrag).
    simpl. do 2 eexists. split; [reflexivity|]. split; [done|].
    destruct Hdrag as (? & ? & _ & _ & _ & _ & _ & _ & _ & _ & _ & Hkeep & _).
    by apply Hkeep.
  - intros e He. unfold onMousedown.
    destruct (Z.eqb_spec (button e) 0); [done|eauto].
  - intros e p He. unfold onTouchstart, readTouchPosition. rewrite He. simpl.
    destruct (startDrag_spec item d template p Hro Htpl) as (d' & -> & Hdrag).
    simpl. do 2 eexists. split; [reflexivity|]. split; [done|].
    destruct Hdrag as (? & ? & _ & _ & _ & _ & _ & _ & _ & _ & _ & Hkeep & _).
    by apply Hkeep.
  - intros e He. unfold onTouchstart. rewrite decide_False by done. eauto.
Qed.

End ToolboxFacts.

(** ** Deleting without a selection *)

Section DeleteFacts.
Context `{ControlBar.Context DesignerContext Step Sequence}.
Context `{Workspace.Components}.

(** C8.  With no step selected, the delete handler of the control bar
    and [Workspace.removeSelectedStep] return normally and leave the
    designer context, respectively the workspace (sequences and
    forwarded notifications included), exactly as they were. *)
Theorem delete_without_selection_is_noop
    (context : DesignerContext) (w : Workspace.Workspace) :
  ControlBar.selectedStep context = None ->
  Workspace.selectedStep w = None ->
  ControlBar.onDeleteButtonClicked context = Some context /\
  Workspace.removeSelectedStep w = Some w /\
  (forall w', Workspace.removeSelectedStep w = Some w' ->
     Workspace.sequences w' = Workspace.sequences w /\
     Workspace.forwarded w' = Workspace.forwarded w).
Proof.
  intros Hctx Hw.
  unfold ControlBar.onDeleteButtonClicked, Workspace.removeSelectedStep.
  rewrite Hctx, Hw. split; [done|]. split; [done|]. by intros w' [= <-].
Qed.

End DeleteFacts.

(** ** The properties on the sample designer *)

Section Instances.
Import Workspace.
Local Existing Instance Sample.rendering.
Local Existing Instance Sample.context.

(** The canvas point (-200, -60) is under the cursor of [wheel_in]
    before and after the zoom. *)
Lemma onWheel_keeps_point_under_cursor_witness :
  let p := Vector.new (-200) (-60) in
  let w' := onWheel Sample.wheel_in Sample.rendered in
  ~ (scale Sample.rendered == 0)%Q /\
  screenPoint Sample.rendered p =v= mousePoint Sample.wheel_in Sample.rendered /\
  screenPoint w' p =v= mousePoint Sample.wheel_in w'.
Proof.
  cbv zeta.
  assert (H1 : ~ (scale Sample.rendered == 0)%Q) by (vm_compute; discriminate).
  assert (H2 : screenPoint Sample.rendered (Vector.new (-200) (-60))
               =v= mousePoint Sample.wheel_in Sample.rendered)
    by (split; vm_compute; reflexivity).
  split; [exact H1|]. split; [exact H2|].
  apply (onWheel_keeps_point_under_cursor Sample.wheel_in Sample.rendered
           (Vector.new (-200) (-60)) H1 H2).
Defined.

(** Zooming out three times and in once from scale 1. *)
Lemma onWheel_scale_clamped_witness :
  ((1 # 10 <= scale Sample.rendered)%Q /\ (scale Sample.rendered <= 3)%Q) /\
  (scale (onWheel Sample.wheel_in Sample.rendered) == 11 # 10)%Q /\
  (1 # 10 <= scale (onWheels [Sample.wheel_out; Sample.wheel_out;
                              Sample.wheel_out; Sample.wheel_in]
                             Sample.rendered))%Q.
Proof.
  assert (H0 : (1 # 10 <= scale Sample.rendered)%Q /\ (scale Sample.rendered <= 3)%Q)
    by (split; vm_compute; discriminate).
  split; [exact H0|].
  pose proof (onWheel_scale_clamped Sample.wheel_in Sample.rendered H0)
    as (_ & Hin & _ & Hall).
  split.
  - rewrite Hin; [vm_compute; reflexivity | vm_compute; discriminate].
  - apply Hall.
Defined.

Lemma center_sets_viewport_witness :
  mainComponent Sample.rendered = Some [0; 1; 2]%nat /\
  scale (center Sample.rendered) = 1%Q /\
  (20 <= Vector.y (position (center Sample.rendered)))%Q.
Proof.
  assert (H0 : mainComponent Sample.rendered = Some [0; 1; 2]%nat)
    by (vm_compute; reflexivity).
  split; [exact H0|].
  pose proof (center_sets_viewport Sample.rendered _ H0) as (Hs & _ & Hy & _).
  split; [exact Hs | exact Hy].
Defined.

Lemma selection_is_exclusive_witness :
  selection_consistent Sample.selected1 /\
  (exists w', selectStep 2%nat Sample.selected1 = Some w' /\
              stateOf w' 2%nat = Some selected /\
              stateOf w' 1%nat = Some default) /\
  (exists w', calls [CallSelectStep 0%nat; CallClearSelectedStep;
                     CallSelectStep 2%nat; CallSelectStep 1%nat]
                    Sample.selected1 = Some w' /\
              (selectedCount w' <= 1)%nat).
Proof.
  assert (H0 : selection_consistent Sample.selected1)
    by (apply selection_consistentb_sound; vm_compute; reflexivity).
  assert (H1 : is_Some (components Sample.selected1 !! 2%nat))
    by (vm_compute; eauto).
  assert (H2 : Forall (fun c => is_Some (components Sample.selected1 !! c))
                 (selects [CallSelectStep 0%nat; CallClearSelectedStep;
                           CallSelectStep 2%nat; CallSelectStep 1%nat])).
  { repeat constructor; vm_compute; eauto. }
  split; [exact H0|].
  destruct (selection_is_exclusive Sample.selected1 2%nat _ H0 H1 H2)
    as [(w' & Hrun & Hb & Hprev & _) (w'' & Hruns & _ & Hle & _)].
  split.
  - exists w'. split; [exact Hrun|]. split; [exact Hb|].
    apply Hprev; [reflexivity | lia].
  - exists w''. split; [exact Hruns | exact Hle].
Defined.

(** Removing the selected step [12] leaves [11; 13]. *)
Lemma removeSelectedStep_removes_selected_witness :
  selectedStep Sample.selected1 = Some 1%nat /\
  exists w',
    removeSelectedStep Sample.selected1 = Some w' /\
    sequences w' = <[0%nat := [11; 13]%nat]> (sequences Sample.selected1) /\
    selectedStep w' = None /\
    forwarded w' =
      forwarded Sample.selected1 ++ [onSelectedStepChanged None; onChanged].
Proof.
  assert (Ha : selectedStep Sample.selected1 = Some 1%nat) by reflexivity.
  assert (Hc : components Sample.selected1 !! 1%nat =
               Some {| step := 12; parentSequence := 0; state := selected |})
    by (vm_compute; reflexivity).
  assert (Hs : sequences Sample.selected1 !! 0%nat = Some [11; 12; 13]%nat)
    by (vm_compute; reflexivity).
  assert (Hin : 12%nat ∈ [11; 12; 13]%nat)
    by (apply elem_of_cons; right; apply elem_of_cons; left; reflexivity).
  split; [exact Ha|].
  destruct (removeSelectedStep_removes_selected Sample.selected1 1%nat _ _
              Ha Hc Hs Hin)
    as (w' & i & Hrun & Hi & _ & Hseqs & _ & _ & _ & _ & Hsel & Hfw).
  exists w'. split; [exact Hrun|].
  assert (Hidx : Z.of_nat i = 1) by (rewrite <- Hi; vm_compute; reflexivity).
  assert (i = 1%nat) as -> by lia.
  split; [exact Hseqs|]. split; [exact Hsel | exact Hfw].
Defined.

(** With the stale component selected, the last step, [13], goes. *)
Lemma removeSelectedStep_absent_removes_last_witness :
  (99%nat ∉ [11; 12; 13]%nat) /\
  exists w',
    removeSelectedStep Sample.stale = Some w' /\
    sequences w' !! 0%nat = Some [11; 12]%nat.
Proof.
  assert (Ha : selectedStep Sample.stale = Some 1%nat) by reflexivity.
  assert (Hc : components Sample.stale !! 1%nat =
               Some {| step := 99; parentSequence := 0; state := selected |})
    by (vm_compute; reflexivity).
  assert (Hs : sequences Sample.stale !! 0%nat = Some [11; 12; 13]%nat)
    by (vm_compute; reflexivity).
  assert (Hnin : 99%nat ∉ [11; 12; 13]%nat).
  { intros Hin. repeat (apply elem_of_cons in Hin as [Hin|Hin]; [lia|]).
    by apply elem_of_nil in Hin. }
  split; [exact Hnin|].
  destruct (removeSelectedStep_absent_removes_last Sample.stale 1%nat _ _
              Ha Hc Hs Hnin)
    as (_ & w' & Hrun & _ & Hlast & _).
  exists w'. split; [exact Hrun|].
  apply (Hlast [11; 12]%nat 13%nat eq_refl).
Defined.

(** A primary-button click on component [2] selects; the same click
    with the middle button pans. *)
Lemma onMouseDown_starts_behavior_witness :
  mainComponent Sample.rendered = Some [0; 1; 2]%nat /\
  onMouseDown (Sample.click 0 2%nat) Sample.rendered =
    start (Sample.click 0 2%nat) (SelectStepBehavior 2%nat) Sample.rendered.
Proof.
  assert (H0 : mainComponent Sample.rendered = Some [0; 1; 2]%nat)
    by (vm_compute; reflexivity).
  split; [exact H0|].
  destruct (onMouseDown_starts_behavior (Sample.click 0 2%nat) Sample.rendered
              _ H0) as (b & Hrun & _ & _ & Hsel & _).
  destruct Hsel as (c & Hhit & ->).
  { split; [vm_compute; discriminate|]. split; [reflexivity|].
    vm_compute. eauto. }
  vm_compute in Hhit. injection Hhit as <-. exact Hrun.
Defined.

Lemma toolbox_readonly_starts_nothing_witness :
  Toolbox.isReadonly (Sample.designer true) = true /\
  Toolbox.startDrag Sample.item (Vector.new 5 6) (Sample.designer true) =
    Some (Sample.designer true).
Proof.
  assert (H0 : Toolbox.isReadonly (Sample.designer true) = true) by reflexivity.
  split; [exact H0|].
  apply (toolbox_readonly_starts_nothing Sample.item (Sample.designer true) H0).
Defined.

Lemma toolbox_drag_start_witness :
  Toolbox.isReadonly (Sample.designer false) = false /\
  Toolbox.objects (Sample.designer false) !! Toolbox.step Sample.item =
    Some Sample.template /\
  exists flags d',
    Toolbox.onTouchstart Sample.item
      {| Toolbox.touches := [Vector.new 5 6] |} (Sample.designer false) =
      Some (flags, d') /\
    Toolbox.drag_started Sample.template (Vector.new 5 6)
      (Sample.designer false) d'.
Proof.
  assert (H0 : Toolbox.isReadonly (Sample.designer false) = false) by reflexivity.
  assert (H1 : Toolbox.objects (Sample.designer false) !! Toolbox.step Sample.item
               = Some Sample.template) by (vm_compute; reflexivity).
  split; [exact H0|]. split; [exact H1|].
  destruct (toolbox_drag_start Sample.item (Sample.designer false) _ H0 H1)
    as (_ & _ & Htouch & _).
  destruct (Htouch {| Toolbox.touches := [Vector.new 5 6] |} _ eq_refl)
    as (flags & d' & Hrun & Hdrag & _).
  exists flags, d'. split; [exact Hrun | exact Hdrag].
Defined.

Lemma delete_without_selection_is_noop_witness :
  ControlBar.selectedStep (None, [11; 12; 13]%nat) = None /\
  selectedStep Sample.rendered = None /\
  ControlBar.onDeleteButtonClicked (None, [11; 12; 13]%nat) =
    Some (None, [11; 12; 13]%nat) /\
  removeSelectedStep Sample.rendered = Some Sample.rendered.
Proof.
  assert (H0 : ControlBar.selectedStep (None, [11; 12; 13]%nat) = None)
    by reflexivity.
  assert (H1 : selectedStep Sample.rendered = None) by (vm_compute; reflexivity).
  split; [exact H0|]. split; [exact H1|].
  destruct (delete_without_selection_is_noop (None, [11; 12; 13]%nat)
              Sample.rendered H0 H1) as (Hbar & Hws & _).
  split; [exact Hbar | exact Hws].
Defined.

End Instances.

(** * Further properties *)

(** ** The viewport under zooming, panning and centering *)

Section ViewportRuns.
Import Workspace WorkspaceRuns.
Context `{Components}.
Implicit Types (w : Workspace) (e : WheelEvent).

Local Open Scope Q_scope.

Lemma newScale_at_top e w : deltaY e <= 0 -> scale w == 3 -> newScale e w == 3.
Proof.
  intros Hd Hs. rewrite newScale_clamped.
  unfold spec_clamped_scale, wheelDelta.
  destruct (Qlt_le_dec 0 (deltaY e)); [lra|].
  destruct (Qlt_le_dec _ (1 # 10)); [lra|].
  destruct (Qlt_le_dec 3 _); [reflexivity|lra].
Qed.

Lemma newScale_at_bottom e w :
  0 < deltaY e -> scale w == 1 # 10 -> newScale e w == 1 # 10.
Proof.
  intros Hd Hs. rewrite newScale_clamped.
  unfold spec_clamped_scale, wheelDelta.
  destruct (Qlt_le_dec 0 (deltaY e)); [|lra].
  destruct (Qlt_le_dec _ (1 # 10)); [reflexivity|].
  destruct (Qlt_le_dec 3 _); lra.
Qed.

(** X2.  At a limit of the scale, wheel steps further out of the range
    leave the scale at the limit: at 3 any run of steps in, and at 0.1
    any run of steps out, ends with the scale it started with; each
    event forwards the viewport notification all the same. *)
Theorem onWheels_at_limit_keep_scale (es : list WheelEvent) w :
  (scale w == 3 /\ Forall (fun e => deltaY e <= 0) es) \/
  (scale w == 1 # 10 /\ Forall (fun e => 0 < deltaY e) es) ->
  scale (onWheels es w) == scale w /\
  forwarded (onWheels es w) =
    forwarded w ++ replicate (length es) onViewPortChanged.
Proof.
  intros Hlimit. induction es as [|e es IH] using rev_ind.
  - split; [reflexivity|]. simpl. by rewrite app_nil_r.
  - rewrite onWheels_snoc, onWheel_scale.
    assert (Hes : scale w == 3 /\ Forall (fun e => deltaY e <= 0) es \/
                  scale w == 1 # 10 /\ Forall (fun e => 0 < deltaY e) es).
    { destruct Hlimit as [[Hs [Hall _]%Forall_app]|[Hs [Hall _]%Forall_app]];
        [left|right]; by split. }
    destruct (IH Hes) as [Hscale Hfw]. split.
    + destruct Hlimit as [[Hs [_ He]%Forall_app]|[Hs [_ He]%Forall_app]];
        apply (proj1 (Forall_singleton _ _)) in He.
      * rewrite newScale_at_top; [by symmetry|done|]. by rewrite Hscale.
      * rewrite newScale_at_bottom; [by symmetry|done|]. by rewrite Hscale.
    + change (forwarded (onWheel e (onWheels es w)))
        with (forwarded (onWheels es w) ++ [onViewPortChanged]).
      rewrite Hfw, length_app, <- app_assoc. simpl.
      by rewrite Nat.add_1_r, replicate_S_end.
Qed.

Lemma move_keeps_main (m : ViewportMove) w :
  mainComponent (move m w) = mainComponent w /\
  getSize (view (move m w)) = getSize (view w).
Proof. by destruct m. Qed.

Lemma moves_keeps_main (ms : list ViewportMove) w :
  mainComponent (moves ms w) = mainComponent w /\
  getSize (view (moves ms w)) = getSize (view w).
Proof.
  revert w. induction ms as [|m ms IH]; intros w; [done|].
  unfold moves. simpl. fold (moves ms (move m w)).
  destruct (IH (move m w)) as [-> ->]. apply move_keeps_main.
Qed.

(** X3.  Centering forgets the zooming and panning done before it: after
    any run of wheel events and [setPosition] calls, [center] gives the
    very position and scale it gives on the workspace before the run. *)
Theorem center_after_moves (ms : list ViewportMove) w mc :
  mainComponent w = Some mc ->
  position (center (moves ms w)) = position (center w) /\
  scale (center (moves ms w)) = 1 /\
  scale (center w) = 1.
Proof.
  intros Hmc. destruct (moves_keeps_main ms w) as [Hmain Hsize].
  unfold center. rewrite Hmain, Hmc. simpl. by rewrite Hsize.
Qed.

End ViewportRuns.

(** ** What every method keeps *)

Section WorkspaceInvariants.
Import Workspace WorkspaceRuns.
Context `{Components}.
Implicit Types (w : Workspace).

Local Open Scope Q_scope.

Lemma setState_frame c s w w' :
  setState c s w = Some w' -> w' = with_components (components w') w.
Proof.
  unfold setState. destruct (components w !! c); simpl; [|done].
  by intros [= <-].
Qed.

Lemma clearSelectedStep_frame w w' :
  clearSelectedStep w = Some w' ->
  same_but_selection w w' /\ selectedStep w' = None.
Proof.
  unfold clearSelectedStep. destruct (selectedStep w) as [a|] eqn:Ha.
  - destruct (setState a default w) as [w1|] eqn:H1; simpl; [|done].
    intros [= <-]. apply setState_frame in H1. rewrite H1.
    by repeat split.
  - intros [= <-]. by repeat split.
Qed.

Lemma selectStep_frame c w w' :
  selectStep c w = Some w' ->
  same_but_selection w w' /\ selectedStep w' = Some c.
Proof.
  unfold selectStep. intros Hrun.
  assert (Hfirst : exists w1,
            match selectedStep w with
            | Some a => setState a default w
            | None => Some w
            end = Some w1 /\ w1 = with_components (components w1) w).
  { destruct (selectedStep w) as [a|].
    - destruct (setState a default w) as [w1|] eqn:H1; [|done].
      exists w1. split; [done|]. by apply setState_frame in H1.
    - exists w. split; [done|]. by destruct w. }
  destruct Hfirst as (w1 & H1 & Hw1). rewrite H1 in Hrun. simpl in Hrun.
  destruct (setState c selected (with_selectedStep (Some c) w1))
    as [w2|] eqn:H2; simpl in Hrun; [|done].
  apply setState_frame in H2.
  destruct (components w2 !! c); simpl in Hrun; [|done].
  injection Hrun as <-. rewrite H2, Hw1. by repeat split.
Qed.

Lemma render_frame w :
  exists mc,
    mainComponent (render w) = Some mc /\
    view (render w) = setView (componentView mc) (view w) /\
    scale (render w) = scale w /\ position (render w) = position w /\
    isReadonly (render w) = isReadonly w.
Proof. unfold render. destruct (create _ _ _) as [mc comps]. by exists mc. Qed.

Lemma notifyChanged_frame w w' :
  notifyChanged w = Some w' ->
  exists w1 mc,
    same_but_selection w w1 /\
    mainComponent w' = Some mc /\
    view w' = setView (componentView mc) (view w1) /\
    scale w' = scale w /\ position w' = position w /\
    isReadonly w' = isReadonly w /\ selectedStep w' = None.
Proof.
  unfold notifyChanged.
  destruct (clearSelectedStep w) as [w1|] eqn:H1; simpl; [|done].
  intros [= <-]. apply clearSelectedStep_frame in H1 as [Hframe Hsel].
  destruct (render_frame w1) as (mc & Hmc & Hview & Hs & Hp & Hro).
  exists w1, mc. split; [done|]. simpl.
  destruct Hframe as (_ & _ & _ & _ & Hro1 & Hp1 & Hs1 & _).
  repeat split; try congruence.
  destruct (render_fields w1) as (_ & -> & _). done.
Qed.

Lemma removeSelectedStep_frame w w' :
  removeSelectedStep w = Some w' ->
  w' = w \/
  exists mc,
    mainComponent w' = Some mc /\
    view w' = setView (componentView mc) (view w) /\
    scale w' = scale w /\ position w' = position w /\
    isReadonly w' = isReadonly w.
Proof.
  unfold removeSelectedStep. destruct (selectedStep w) as [a|].
  - destruct (components w !! a) as [comp|]; simpl; [|done].
    destruct (sequences w !! parentSequence comp) as [steps|]; simpl; [|done].
    intros (w1 & mc & Hframe & Hmc & Hview & Hs & Hp & Hro & _)%notifyChanged_frame.
    right. exists mc. destruct Hframe as (Hv & _). simpl in *.
    repeat split; congruence.
  - intros [= <-]. by left.
Qed.

Lemma onMouseDown_requests (e : MouseEvent) w :
  same_but_requests w (onMouseDown e w) /\
  behaviorController (onMouseDown e w) =
    behaviorController w ++ match behaviorFor e w with
                            | Some b => [(e, b)]
                            | None => []
                            end /\
  (forall e', behaviorFor e' (onMouseDown e w) = behaviorFor e' w).
Proof.
  unfold onMouseDown, behaviorFor.
  destruct (mainComponent w) as [mc|] eqn:Hmc; simpl.
  - destruct (negb (button e =? 1)%Z && negb (isReadonly w)); simpl.
    + destruct (findStepComponent mc (target e)); simpl;
        rewrite Hmc; by repeat split.
    + rewrite Hmc. by repeat split.
  - rewrite Hmc, app_nil_r. by repeat split.
Qed.

(** The three properties below hold together or not at all. *)
Lemma invoke_keeps (m : Method) w w' :
  scale_in_range w -> view_synced w -> view_shows_main w ->
  invoke m w = Some w' ->
  scale_in_range w' /\ view_synced w' /\ view_shows_main w'.
Proof.
  intros Hrange Hsync Hmain Hrun.
  assert (Hframe : forall w1,
            view w1 = view w -> scale w1 = scale w -> position w1 = position w ->
            mainComponent w1 = mainComponent w ->
            scale_in_range w1 /\ view_synced w1 /\ view_shows_main w1).
  { intros w1 Hv Hs Hp Hm.
    unfold scale_in_range, view_synced, view_shows_main.
    by rewrite Hv, Hs, Hp, Hm. }
  assert (Hrender : forall w1 mc,
            mainComponent w1 = Some mc ->
            view w1 = setView (componentView mc) (view w) ->
            scale w1 = scale w -> position w1 = position w ->
            scale_in_range w1 /\ view_synced w1 /\ view_shows_main w1).
  { intros w1 mc Hm Hv Hs Hp.
    unfold scale_in_range, view_synced, view_shows_main.
    rewrite Hv, Hs, Hp, Hm. simpl. by destruct Hsync as (? & ? & ?). }
  destruct m; simpl in Hrun.
  - injection Hrun as <-.
    destruct (onMouseDown_requests e w)
      as ((Hv & _ & Hm & _ & _ & Hp & Hs & _) & _).
    by apply Hframe.
  - injection Hrun as <-. split; [apply newScale_bounds|]. split; [done|].
    unfold view_shows_main. simpl. exact Hmain.
  - injection Hrun as <-. split; [exact Hrange|]. split; [done|].
    unfold view_shows_main. simpl. exact Hmain.
  - injection Hrun as <-. unfold center.
    destruct (mainComponent w) as [mc|] eqn:Hmc; [|by auto].
    split; [split; simpl; discriminate|]. split; [done|].
    unfold view_shows_main in *. cbn [view mainComponent forward with_view
      with_scale with_position setPositionAndScale currentView].
    exact Hmain.
  - apply selectStep_frame in Hrun as [(Hv & _ & _ & Hm & _ & Hp & Hs & _) _].
    by apply Hframe.
  - apply clearSelectedStep_frame in Hrun as [(Hv & _ & _ & Hm & _ & Hp & Hs & _) _].
    by apply Hframe.
  - apply removeSelectedStep_frame in Hrun as [->|(mc & Hm & Hv & Hs & Hp & _)];
      [done|]. by apply (Hrender _ mc).
  - apply notifyChanged_frame in Hrun
      as (w1 & mc & (Hv1 & _) & Hm & Hv & Hs & Hp & _).
    apply (Hrender _ mc); try done. by rewrite Hv, Hv1.
  - injection Hrun as <-. by apply Hframe.
Qed.

(** X4.  No method of the workspace takes the scale out of [0.1, 3.0],
    lets the attributes of the view drift from the position and the
    scale, or leaves another component view on display than the main
    component's: whatever methods are called, in whatever order, a run
    that completes ends with the foreground drawn at the current position
    and scale, and with a grid tile between 5 and 150. *)
Theorem workspace_run_keeps_viewport (ms : list Method) w w' :
  scale_in_range w -> view_synced w -> view_shows_main w ->
  invokes ms w = Some w' ->
  scale_in_range w' /\ view_synced w' /\ view_shows_main w' /\
  exists tile, gridPatternPath (view w') = Some tile /\ 5 <= tile /\ tile <= 150.
Proof.
  intros Hrange Hsync Hmain Hrun.
  assert (Hinv : scale_in_range w' /\ view_synced w' /\ view_shows_main w').
  { revert w Hrange Hsync Hmain Hrun.
    induction ms as [|m ms IH]; intros w Hrange Hsync Hmain Hrun.
    - injection Hrun as <-. done.
    - simpl in Hrun. destruct (invoke m w) as [w1|] eqn:H1; simpl in Hrun; [|done].
      destruct (invoke_keeps m w w1 Hrange Hsync Hmain H1) as (? & ? & ?).
      by apply (IH w1). }
  destruct Hinv as ([Hlo Hhi] & Hsync' & Hmain').
  split; [by split|]. split; [done|]. split; [done|].
  exists (GRID_SIZE * scale w'). split; [apply Hsync'|].
  unfold GRID_SIZE. split; lra.
Qed.

(** X5.  [Workspace.append] always ends with the main component that
    the rendering of the given sequence creates, on display, no
    selection, the readonly flag off, the scale at 1 and the position at
    the centering offsets of that component (at least 0 and 20), the
    view drawn accordingly, no start request, and the viewport
    notification as the only one forwarded; the sequences are the ones
    given. *)
Theorem append_state (v : WorkspaceView) (s : nat) (seqs : gmap nat (list nat)) :
  let w := append v s seqs in
  is_Some (mainComponent w) /\ view_shows_main w /\
  selectedStep w = None /\ isReadonly w = false /\
  scale w = 1 /\ 0 <= Vector.x (position w) /\ 20 <= Vector.y (position w) /\
  view_synced w /\ scale_in_range w /\
  sequence w = s /\ sequences w = seqs /\
  behaviorController w = [] /\ forwarded w = [onViewPortChanged] /\
  mainComponent w = Some (create s seqs ∅).1 /\
  components w = (create s seqs ∅).2 /\
  position w =
    Vector.new
      (Qmax 0 ((Vector.x (getSize v)
                - width (componentView (create s seqs ∅).1)) / 2))
      (Qmax 20 ((Vector.y (getSize v)
                 - height (componentView (create s seqs ∅).1)) / 2)).
Proof.
  cbv zeta. unfold append, render. simpl.
  destruct (create s seqs ∅) as [mc comps]. unfold center. simpl.
  repeat split; try done; try (by eauto); try apply Q.le_max_l.
Qed.

(** X6.  Mouse-downs change nothing but the start requests: after any
    run of them the workspace has one more request per event, in the
    order of the events and each with the behavior chosen on the
    workspace as it was before the run; without a main component it has
    none more. *)
Theorem onMouseDowns_requests (es : list MouseEvent) w :
  same_but_requests w (onMouseDowns es w) /\
  behaviorController (onMouseDowns es w) =
    behaviorController w ++ omap (fun e => pair e <$> behaviorFor e w) es /\
  (mainComponent w = None -> onMouseDowns es w = w).
Proof.
  split; [|split].
  - revert w. induction es as [|e es IH]; intros w; [by repeat split|].
    unfold onMouseDowns. simpl. fold (onMouseDowns es (onMouseDown e w)).
    destruct (IH (onMouseDown e w)) as (? & ? & ? & ? & ? & ? & ? & ? & ? & ?).
    destruct (onMouseDown_requests e w)
      as ((? & ? & ? & ? & ? & ? & ? & ? & ? & ?) & _).
    unfold same_but_requests. repeat split; congruence.
  - revert w. induction es as [|e es IH]; intros w; [by rewrite app_nil_r|].
    unfold onMouseDowns. simpl. fold (onMouseDowns es (onMouseDown e w)).
    rewrite IH. destruct (onMouseDown_requests e w) as (_ & -> & Hsame).
    rewrite <- app_assoc. f_equal.
    assert (Hes : omap (fun e' => pair e' <$> behaviorFor e' (onMouseDown e w)) es
                  = omap (fun e' => pair e' <$> behaviorFor e' w) es).
    { clear IH. induction es as [|e' es IHes]; [done|].
      simpl. rewrite Hsame.
      destruct (behaviorFor e' w); simpl; [f_equal|]; exact IHes. }
    rewrite Hes. by destruct (behaviorFor e w).
  - intros Hmc. revert w Hmc. induction es as [|e es IH]; intros w Hmc; [done|].
    unfold onMouseDowns. simpl. fold (onMouseDowns es (onMouseDown e w)).
    assert (onMouseDown e w = w) as -> by (unfold onMouseDown; by rewrite Hmc).
    by apply IH.
Qed.

End WorkspaceInvariants.

(** ** Selecting, clearing and removing, one call after the other *)

Section SelectionRuns.
Import Workspace WorkspaceRuns.
Context `{Components}.
Implicit Types (w : Workspace) (comp : StepComponent) (steps : list nat).

(** X7.  Clearing the selection twice is clearing it once: the second
    call changes nothing and forwards nothing; and with no selection
    the first does not either. *)
Theorem clearSelectedStep_twice w w1 :
  clearSelectedStep w = Some w1 ->
  selectedStep w1 = None /\
  clearSelectedStep w1 = Some w1 /\
  (selectedStep w = None -> w1 = w).
Proof.
  intros Hrun. destruct (clearSelectedStep_frame w w1 Hrun) as [_ Hnone].
  split; [done|]. split.
  - unfold clearSelectedStep. by rewrite Hnone.
  - intros Hw. unfold clearSelectedStep in Hrun. rewrite Hw in Hrun. congruence.
Qed.

(** X8.  Selecting a component in the [default] state while nothing is
    selected, then clearing the selection, gives back the components as
    they were and no selection; the listeners have been told of the
    step, then of [null]. *)
Theorem selectStep_clearSelectedStep_round_trip w b comp :
  selectedStep w = None ->
  components w !! b = Some comp ->
  state comp = default ->
  exists w1 w2,
    selectStep b w = Some w1 /\
    clearSelectedStep w1 = Some w2 /\
    components w2 = components w /\
    selectedStep w2 = None /\
    same_but_selection w w2 /\
    forwarded w2 =
      forwarded w ++ [onSelectedStepChanged (Some (step comp));
                      onSelectedStepChanged None].
Proof.
  intros Hnone Hb Hst. unfold selectStep. rewrite Hnone. simpl.
  unfold setState at 1. simpl. rewrite Hb. simpl.
  rewrite lookup_insert_eq. simpl.
  eexists. eexists. split; [reflexivity|].
  unfold clearSelectedStep. simpl. unfold setState. simpl.
  rewrite lookup_insert_eq. simpl. split; [reflexivity|]. simpl.
  split.
  - rewrite insert_insert_eq. apply insert_id. rewrite Hb. f_equal.
    destruct comp. simpl in *. by subst.
  - split; [done|]. split; [by repeat split|]. by rewrite <- app_assoc.
Qed.

(** X9.  [selectStep] does not look at what is selected already: called
    with the selected component, it leaves the selection and the
    components as they are and forwards the selection notification once
    more. *)
Theorem selectStep_again_notifies w b comp :
  selectedStep w = Some b ->
  components w !! b = Some comp ->
  state comp = selected ->
  exists w',
    selectStep b w = Some w' /\
    components w' = components w /\
    selectedStep w' = Some b /\
    same_but_selection w w' /\
    forwarded w' = forwarded w ++ [onSelectedStepChanged (Some (step comp))].
Proof.
  intros Hsel Hb Hst. unfold selectStep. rewrite Hsel.
  rewrite (setState_Some _ _ _ _ Hb). simpl.
  unfold setState. simpl. rewrite lookup_insert_eq. simpl.
  rewrite lookup_insert_eq. simpl.
  eexists. split; [reflexivity|]. simpl. split.
  - rewrite insert_insert_eq. apply insert_id. rewrite Hb. f_equal.
    destruct comp. simpl in *. by subst.
  - by repeat split.
Qed.

(** X10.  A second [removeSelectedStep] removes nothing: the first one,
    when it completes, leaves no selection, and the second returns the
    workspace as it is. *)
Theorem removeSelectedStep_twice w w1 :
  removeSelectedStep w = Some w1 ->
  selectedStep w1 = None /\ removeSelectedStep w1 = Some w1.
Proof.
  intros Hrun.
  assert (Hnone : selectedStep w1 = None).
  { unfold removeSelectedStep in Hrun.
    destruct (selectedStep w) as [a|] eqn:Ha; [|congruence].
    destruct (components w !! a) as [comp|]; simpl in Hrun; [|done].
    destruct (sequences w !! parentSequence comp); simpl in Hrun; [|done].
    by apply notifyChanged_frame in Hrun as (? & ? & _ & _ & _ & _ & _ & _ & ?). }
  split; [done|]. unfold removeSelectedStep. by rewrite Hnone.
Qed.

Lemma render_isReadonly b w :
  render (with_isReadonly b w) = with_isReadonly b (render w).
Proof. unfold render. simpl. by destruct (create _ _ _). Qed.

Lemma clearSelectedStep_isReadonly b w :
  clearSelectedStep (with_isReadonly b w) =
    with_isReadonly b <$> clearSelectedStep w.
Proof.
  unfold clearSelectedStep, setState. simpl.
  destruct (selectedStep w) as [a|]; [|done].
  by destruct (components w !! a).
Qed.

Lemma notifyChanged_isReadonly b w :
  notifyChanged (with_isReadonly b w) = with_isReadonly b <$> notifyChanged w.
Proof.
  unfold notifyChanged. rewrite clearSelectedStep_isReadonly.
  destruct (clearSelectedStep w) as [w1|]; [|done]. simpl.
  by rewrite render_isReadonly.
Qed.

(** X11.  The readonly flag guards the hit test of [onMouseDown] and
    nothing else: every other method (but the one that toggles the flag)
    does on a readonly workspace what it does on the same workspace not
    readonly, removing the selected step included. *)
Theorem readonly_only_read_by_onMouseDown (m : Method) (b : bool) w :
  reads_isReadonly m = false ->
  invoke m (with_isReadonly b w) = with_isReadonly b <$> invoke m w.
Proof.
  intros Hm. destruct m; try done; simpl.
  - unfold center. simpl. by destruct (mainComponent w).
  - unfold selectStep, setState. simpl.
    destruct (selectedStep w) as [a|]; simpl.
    + destruct (components w !! a) as [compa|]; [|done]. simpl.
      destruct (decide (a = c)) as [->|Hne].
      * rewrite !lookup_insert_eq. simpl. by rewrite !lookup_insert_eq.
      * rewrite !lookup_insert_ne by done.
        destruct (components w !! c); [|done]. simpl.
        by rewrite !lookup_insert_eq.
    + destruct (components w !! c); [|done]. simpl.
      by rewrite !lookup_insert_eq.
  - apply clearSelectedStep_isReadonly.
  - unfold removeSelectedStep. simpl.
    destruct (selectedStep w) as [a|]; [|done].
    destruct (components w !! a) as [comp|]; [|done]. simpl.
    destruct (sequences w !! parentSequence comp) as [steps|]; [|done]. simpl.
    rewrite <- notifyChanged_isReadonly. reflexivity.
  - apply notifyChanged_isReadonly.
Qed.

(** X12.  Whether the selected step is in its parent sequence or not,
    [removeSelectedStep] takes exactly one entry out of a non-empty
    parent sequence and puts none in: what is left is a sublist, one
    shorter. *)
Theorem removeSelectedStep_takes_one w a comp steps :
  selectedStep w = Some a ->
  components w !! a = Some comp ->
  sequences w !! parentSequence comp = Some steps ->
  exists w' steps',
    removeSelectedStep w = Some w' /\
    sequences w' !! parentSequence comp = Some steps' /\
    length steps' = pred (length steps) /\
    steps' `sublist_of` steps.
Proof.
  intros Ha Hcomp Hsteps.
  destruct (removeSelectedStep_spec w a comp steps Ha Hcomp Hsteps)
    as (w' & Hrun & Hseqs & _).
  exists w'. eexists. split; [done|].
  split; [by rewrite Hseqs, lookup_insert_eq|].
  destruct (decide (step comp ∈ steps)) as [Hin|Hnin].
  - destruct (indexOf_present steps (step comp) Hin) as (i & -> & Hl & _).
    assert ((i < length steps)%nat) by (eapply lookup_lt_Some; eauto).
    rewrite splice_one_at by done. split; [|apply sublist_delete].
    rewrite length_delete by eauto. lia.
  - rewrite (indexOf_absent _ _ Hnin), splice_minus_one.
    rewrite removelast_firstn_len. split; [|apply sublist_take].
    rewrite length_take. lia.
Qed.

Lemma elem_of_delete_NoDup (l : list nat) (i : nat) (x y : nat) :
  NoDup l -> l !! i = Some x -> y ∈ delete i l <-> y ∈ l /\ y ≠ x.
Proof.
  intros Hnd Hi. rewrite delete_take_drop.
  rewrite <- (take_drop_middle l i x Hi) in Hnd at 1.
  rewrite <- (take_drop_middle l i x Hi) at 3.
  apply NoDup_app in Hnd as (_ & Hdisj & [Hx _]%NoDup_cons).
  rewrite !elem_of_app, elem_of_cons. split.
  - intros [Hy|Hy]; (split; [tauto|]); intros ->; [|done].
    apply (Hdisj x Hy). by left.
  - tauto.
Qed.

(** X13.  When the steps of the parent sequence are distinct objects,
    the selected step is gone from it after [removeSelectedStep], and
    every other step is still there. *)
Theorem removeSelectedStep_step_gone w a comp steps :
  selectedStep w = Some a ->
  components w !! a = Some comp ->
  sequences w !! parentSequence comp = Some steps ->
  step comp ∈ steps ->
  NoDup steps ->
  exists w' steps',
    removeSelectedStep w = Some w' /\
    sequences w' !! parentSequence comp = Some steps' /\
    NoDup steps' /\
    forall s, s ∈ steps' <-> s ∈ steps /\ s ≠ step comp.
Proof.
  intros Ha Hcomp Hsteps Hin Hnd.
  destruct (removeSelectedStep_spec w a comp steps Ha Hcomp Hsteps)
    as (w' & Hrun & Hseqs & _).
  destruct (indexOf_present steps (step comp) Hin) as (i & Hi & Hl & _).
  assert ((i < length steps)%nat) by (eapply lookup_lt_Some; eauto).
  rewrite Hi, splice_one_at in Hseqs by done.
  exists w', (delete i steps). split; [done|].
  split; [by rewrite Hseqs, lookup_insert_eq|]. split.
  - eapply sublist_NoDup; [exact Hnd|apply sublist_delete].
  - intros s. by apply elem_of_delete_NoDup.
Qed.


(** X15.  Toggling the readonly flag twice gives back the flag and the
    behavior of every mouse-down, and forwards the two values the flag
    went through; in between, on the readonly workspace, no mouse-down
    starts a select-step behavior. *)
Theorem toggleIsReadonly_twice w :
  let w1 := toggleIsReadonly w in
  let w2 := toggleIsReadonly w1 in
  isReadonly w2 = isReadonly w /\
  forwarded w2 =
    forwarded w ++ [onIsReadonlyChanged (negb (isReadonly w));
                    onIsReadonlyChanged (isReadonly w)] /\
  (forall e, behaviorFor e w2 = behaviorFor e w) /\
  (forall e c, isReadonly w = false ->
     behaviorFor e w1 ≠ Some (SelectStepBehavior c)).
Proof.
  cbv zeta. split; [simpl; by rewrite negb_involutive|]. split.
  - simpl. by rewrite negb_involutive, <- app_assoc.
  - split.
    + intros e. unfold behaviorFor. simpl. by rewrite negb_involutive.
    + intros e c Hro. unfold behaviorFor. simpl. rewrite Hro. simpl.
      destruct (mainComponent w); simpl; [|done].
      rewrite andb_false_r. done.
Qed.

End SelectionRuns.

(** ** Runs of toolbox events *)

Section ToolboxRunFacts.
Import Toolbox ToolboxRuns.
Implicit Types (d : Designer) (item : ToolboxItem) (template : Step)
  (inputs : list Input).

Lemma Uid_issued_length n : length (Uid.issued n) = n.
Proof. unfold Uid.issued. by rewrite length_fmap, length_seq. Qed.

Lemma Uid_issued_le n m x : (n <= m)%nat -> x ∈ Uid.issued n -> x ∈ Uid.issued m.
Proof.
  unfold Uid.issued. intros Hle (k & -> & Hk)%list_elem_of_fmap.
  apply list_elem_of_fmap. exists k. split; [done|].
  apply elem_of_seq. apply elem_of_seq in Hk. lia.
Qed.

(** The designer after a [startDrag] that is let through. *)
Lemma startDrag_result item d template position :
  isReadonly d = false ->
  objects d !! step item = Some template ->
  let newStep := fresh (dom (objects d)) in
  let i := (Uid.next (uid d)).1 in
  objects d !! newStep = None /\
  startDrag item position d =
    Some (start position (DragStepBehavior newStep)
            (with_objects (<[newStep := set_id i template]> (objects d))
               (with_uid (S (uid d)) d))).
Proof.
  intros Hro Htpl. cbv zeta.
  destruct (createStep_spec d (step item) template Htpl) as [Hfresh Hcreate].
  split; [done|]. unfold startDrag. rewrite Hro. simpl. by rewrite Hcreate.
Qed.

(** One input on a designer that is not readonly. *)
Lemma handle_spec item (i : Input) d template :
  isReadonly d = false ->
  objects d !! step item = Some template ->
  exists flags d',
    handle item i d = Some (flags, d') /\
    match dragPosition i with
    | Some position =>
        exists newStep,
          objects d !! newStep = None /\
          d' = start position (DragStepBehavior newStep)
                 (with_objects
                    (<[newStep := set_id (pretty (uid d)) template]> (objects d))
                    (with_uid (S (uid d)) d))
    | None => d' = d
    end.
Proof.
  intros Hro Htpl. destruct i as [e|e]; simpl.
  - unfold onMousedown. destruct (button e =? 0)%Z; [|eauto].
    destruct (startDrag_result item d template (readMousePosition e) Hro Htpl)
      as [Hfresh ->]. simpl. eauto 10.
  - unfold onTouchstart, readTouchPosition. case_decide as Hlen; [|eauto].
    destruct (touches e) as [|p ps]; [done|]. simpl.
    destruct (startDrag_result item d template p Hro Htpl) as [Hfresh ->].
    simpl. eauto 10.
Qed.

(** A run of inputs on a designer that is not readonly: the requests it
    adds and the objects it creates, each with its ID. *)
Lemma handles_spec item inputs : forall d template,
  isReadonly d = false ->
  objects d !! step item = Some template ->
  exists d' (news : list (nat * string)),
    handles item inputs d = Some d' /\
    isReadonly d' = false /\
    behaviorController d' =
      behaviorController d
        ++ zip (omap dragPosition inputs) (DragStepBehavior <$> news.*1) /\
    length news = length (omap dragPosition inputs) /\
    uid d' = (uid d + length news)%nat /\
    size (objects d') = (size (objects d) + length news)%nat /\
    (forall r s, objects d !! r = Some s -> objects d' !! r = Some s) /\
    NoDup news.*1 /\ NoDup news.*2 /\
    Forall (fun n => (objects d !! n.1 = None) /\
                     (n.2 ∉ Uid.issued (uid d)) /\
                     (n.2 ∈ Uid.issued (uid d')) /\
                     (objects d' !! n.1 = Some (set_id n.2 template))) news.
Proof.
  induction inputs as [|i inputs IH]; intros d template Hro Htpl.
  - exists d, []. simpl. rewrite app_nil_r, !Nat.add_0_r.
    repeat split; try done; constructor.
  - destruct (handle_spec item i d template Hro Htpl) as (flags & d1 & Hrun & Hd1).
    simpl. rewrite Hrun. simpl.
    destruct (dragPosition i) as [position|] eqn:Hpos.
    + destruct Hd1 as (newStep & Hfresh & ->).
      set (d1 := start _ _ _) in *.
      assert (Hkeep1 : forall r s, objects d !! r = Some s ->
                                   objects d1 !! r = Some s).
      { intros r s Hr. simpl. rewrite lookup_insert_ne; [done|]. congruence. }
      destruct (IH d1 template Hro (Hkeep1 _ _ Htpl))
        as (d' & news & -> & Hro' & Hbc & Hlen & Huid & Hsize & Hkeep
            & Hnd1 & Hnd2 & Hall).
      exists d', ((newStep, pretty (uid d)) :: news). simpl in *.
      rewrite Forall_forall in Hall.
      split; [done|]. split; [done|].
      split; [by rewrite Hbc, <- app_assoc|].
      split; [by rewrite Hlen|]. split; [lia|].
      split; [rewrite Hsize, map_size_insert_None by done; lia|].
      split; [by auto|]. split.
      { apply NoDup_cons. split; [|done].
        intros ([r i'] & Heq & Hin)%list_elem_of_fmap. simpl in Heq. subst r.
        destruct (Hall _ Hin) as (Hnone & _). simpl in Hnone.
        by rewrite lookup_insert_eq in Hnone. }
      split.
      { apply NoDup_cons. split; [|done].
        intros ([r i'] & Heq & Hin)%list_elem_of_fmap. simpl in Heq. subst i'.
        destruct (Hall _ Hin) as (_ & Hnew & _). simpl in Hnew.
        apply Hnew. unfold Uid.issued. rewrite seq_S, fmap_app.
        apply elem_of_app. right. simpl. by left. }
      apply Forall_cons. split.
      * simpl. split; [done|]. split; [apply (Uid_next_fresh (uid d))|].
        split.
        -- apply (Uid_issued_le (S (uid d))); [lia|].
           unfold Uid.issued. rewrite seq_S, fmap_app.
           apply elem_of_app. right. simpl. by left.
        -- apply Hkeep. by rewrite lookup_insert_eq.
      * apply Forall_forall. intros [r i'] Hin.
        destruct (Hall _ Hin) as (Hnone & Hnew & Hold & Hobj). simpl in *.
        split; [|split; [|done]].
        -- destruct (decide (newStep = r)) as [->|Hne];
             [by rewrite lookup_insert_eq in Hnone|].
           by rewrite lookup_insert_ne in Hnone.
        -- intros Hin'. apply Hnew. by apply (Uid_issued_le (uid d)); [lia|].
    + subst d1. destruct (IH d template Hro Htpl) as (d' & news & Hrest).
      exists d', news. exact Hrest.
Qed.

(** X16.  On a designer that is not readonly, a run of mouse-downs and
    touch-starts on a toolbox item adds one start request per
    primary-button mouse-down and per single-touch touch-start, in the
    order of the inputs and at the pointer position of each, issues as
    many IDs and creates as many objects; every object that existed
    before, the template among them, is as it was. *)
Theorem toolbox_run_requests item inputs d template :
  isReadonly d = false ->
  objects d !! step item = Some template ->
  exists d',
    handles item inputs d = Some d' /\
    (behaviorController d').*1 =
      (behaviorController d).*1 ++ omap dragPosition inputs /\
    uid d' = (uid d + length (omap dragPosition inputs))%nat /\
    size (objects d') = (size (objects d) + length (omap dragPosition inputs))%nat /\
    (forall r s, objects d !! r = Some s -> objects d' !! r = Some s) /\
    objects d' !! step item = Some template /\
    isReadonly d' = false.
Proof.
  intros Hro Htpl.
  destruct (handles_spec item inputs d template Hro Htpl)
    as (d' & news & Hrun & Hro' & Hbc & Hlen & Huid & Hsize & Hkeep & _).
  exists d'. split; [done|]. rewrite <- Hlen.
  split; [|by auto 10].
  rewrite Hbc, fmap_app. f_equal. apply fst_zip.
  rewrite length_fmap, length_fmap. lia.
Qed.

Lemma requestedSteps_zip (ps : list Vector.t) (rs : list nat) :
  length ps = length rs ->
  requestedSteps (zip ps (DragStepBehavior <$> rs)) = rs.
Proof.
  revert rs. induction ps as [|p ps IH]; intros [|r rs] Hlen;
    simpl in *; try done.
  f_equal. apply IH. lia.
Qed.

(** X17.  The steps that a run of drags creates are distinct new
    objects, each holding the content of the template under an ID of its
    own: no two of them share an ID, and none has an ID issued before
    the run. *)
Theorem toolbox_run_new_steps item inputs d template :
  isReadonly d = false ->
  objects d !! step item = Some template ->
  exists d',
    handles item inputs d = Some d' /\
    (let news := requestedSteps (drop (length (behaviorController d))
                                      (behaviorController d')) in
     NoDup news /\
     (forall r1 r2, r1 ∈ news -> r2 ∈ news -> idOf d' r1 = idOf d' r2 -> r1 = r2) /\
     (forall r, r ∈ news ->
        objects d !! r = None /\
        exists i, objects d' !! r = Some (set_id i template) /\
                  idOf d' r = Some i /\
                  (i ∉ Uid.issued (uid d)))).
Proof.
  intros Hro Htpl.
  destruct (handles_spec item inputs d template Hro Htpl)
    as (d' & news & Hrun & _ & Hbc & Hlen & _ & _ & _ & Hnd1 & Hnd2 & Hall).
  exists d'. split; [done|]. cbv zeta.
  assert (Hnews : requestedSteps (drop (length (behaviorController d))
                                       (behaviorController d')) = news.*1).
  { rewrite Hbc, drop_app_length. apply requestedSteps_zip.
    rewrite length_fmap. lia. }
  rewrite Hnews. rewrite Forall_forall in Hall.
  assert (Hid : forall n, n ∈ news -> idOf d' n.1 = Some n.2).
  { intros n Hn. destruct (Hall n Hn) as (_ & _ & _ & Hobj).
    unfold idOf. by rewrite Hobj. }
  split; [done|]. split.
  - intros r1 r2 (n1 & -> & Hn1)%list_elem_of_fmap (n2 & -> & Hn2)%list_elem_of_fmap.
    rewrite (Hid _ Hn1), (Hid _ Hn2). intros [= Heq].
    apply list_elem_of_lookup in Hn1 as [k1 Hk1].
    apply list_elem_of_lookup in Hn2 as [k2 Hk2].
    assert (k1 = k2) as ->; [|congruence].
    eapply (NoDup_lookup news.*2); [done| |];
      rewrite list_lookup_fmap; [by rewrite Hk1|by rewrite Hk2, Heq].
  - intros r (n & -> & Hn)%list_elem_of_fmap.
    destruct (Hall n Hn) as (Hnone & Hnew & _ & Hobj).
    split; [done|]. exists n.2. split; [done|]. split; [by apply Hid|done].
Qed.

(** X18.  Whatever the designer, readonly or not, the handlers treat the
    event itself alike: a touch-start has its default action prevented
    always and its propagation stopped exactly when it has one touch; a
    mouse-down has its propagation stopped always and its default action
    never prevented; a context-menu event has its default action
    prevented. *)
Theorem toolbox_event_flags item d template :
  objects d !! step item = Some template ->
  (forall e, exists flags d',
     onTouchstart item e d = Some (flags, d') /\
     defaultPrevented flags = true /\
     (propagationStopped flags = true <-> length (touches e) = 1%nat)) /\
  (forall e, exists flags d',
     onMousedown item e d = Some (flags, d') /\
     defaultPrevented flags = false /\
     propagationStopped flags = true) /\
  (forall e, defaultPrevented (onContextMenu e) = true).
Proof.
  intros Htpl.
  assert (Hdrag : forall position, is_Some (startDrag item position d)).
  { intros position. destruct (isReadonly d) eqn:Hro.
    - rewrite startDrag_readonly by done. eauto.
    - destruct (startDrag_result item d template position Hro Htpl) as [_ ->].
      eauto. }
  split; [|split; [|done]].
  - intros e. unfold onTouchstart, readTouchPosition.
    case_decide as Hlen.
    + destruct (touches e) as [|p ps]; [done|]. simpl.
      destruct (Hdrag p) as [d' ->]. simpl.
      do 2 eexists. split; [reflexivity|]. simpl. split; [done|]. by split.
    + do 2 eexists. split; [reflexivity|]. simpl. split; [done|]. split; done.
  - intros e. unfold onMousedown. destruct (button e =? 0)%Z.
    + destruct (Hdrag (readMousePosition e)) as [d' ->]. simpl. eauto 10.
    + eauto 10.
Qed.

End ToolboxRunFacts.

(** ** The buttons of the control bar *)

Section ControlBarButtonFacts.
Import ControlBarButtons.
Implicit Types (v : ControlBarView) (ns : list Notification).

Lemma notifies_snoc ns n v : notifies (ns ++ [n]) v = notify n (notifies ns v).
Proof. unfold notifies. by rewrite foldl_app. Qed.

(** X19.  After any run of the notifications the control bar listens to,
    the delete button is hidden exactly when the context of the last
    readonly or selection notification had no selected step or was
    readonly, and the move button is disabled exactly when the last
    move-mode notification said disabled; a kind of notification that
    did not occur leaves its button as it was. *)
Theorem control_bar_buttons ns v :
  isDeleteButtonHidden (notifies ns v) =
    match lastRefresh ns with
    | Some context => negb (hasSelectedStep context) || isReadonly context
    | None => isDeleteButtonHidden v
    end /\
  isMoveButtonDisabled (notifies ns v) =
    match lastMoveMode ns with
    | Some isEnabled => negb isEnabled
    | None => isMoveButtonDisabled v
    end /\
  (forall context, lastRefresh ns = Some context ->
     isDeleteButtonHidden (notifies ns v) = false <->
     hasSelectedStep context = true /\ isReadonly context = false).
Proof.
  assert (Hrun :
    isDeleteButtonHidden (notifies ns v) =
      match lastRefresh ns with
      | Some context => negb (hasSelectedStep context) || isReadonly context
      | None => isDeleteButtonHidden v
      end /\
    isMoveButtonDisabled (notifies ns v) =
      match lastMoveMode ns with
      | Some isEnabled => negb isEnabled
      | None => isMoveButtonDisabled v
      end).
  { induction ns as [|n ns [IHd IHm]] using rev_ind; [done|].
    rewrite notifies_snoc. unfold lastRefresh, lastMoveMode in *.
    rewrite !omap_app.
    destruct n as [c|c|b]; simpl; rewrite ?app_nil_r, ?last_snoc; by split. }
  destruct Hrun as [Hd Hm]. split; [done|]. split; [done|].
  intros context Hlast. rewrite Hd, Hlast.
  destruct (hasSelectedStep context), (isReadonly context); simpl;
    split; (intros [? ?] || intros ?); done.
Qed.

End ControlBarButtonFacts.

(** ** The further properties on the sample designer *)

Section MoreInstances.
Import Workspace WorkspaceRuns.
Local Existing Instance Sample.rendering.

Lemma onWheels_at_limit_keep_scale_witness :
  (scale SampleRuns.zoomed_in == 3)%Q /\
  (scale (onWheels [Sample.wheel_in; Sample.wheel_in; Sample.wheel_in]
                   SampleRuns.zoomed_in) == 3)%Q /\
  length (forwarded (onWheels [Sample.wheel_in; Sample.wheel_in; Sample.wheel_in]
                              SampleRuns.zoomed_in))
  = (length (forwarded SampleRuns.zoomed_in) + 3)%nat.
Proof.
  assert (H1 : (scale SampleRuns.zoomed_in == 3)%Q) by (vm_compute; reflexivity).
  assert (H2 : Forall (fun e => (deltaY e <= 0)%Q)
                 [Sample.wheel_in; Sample.wheel_in; Sample.wheel_in])
    by (repeat constructor; vm_compute; discriminate).
  split; [exact H1|].
  destruct (onWheels_at_limit_keep_scale
              [Sample.wheel_in; Sample.wheel_in; Sample.wheel_in]
              SampleRuns.zoomed_in (or_introl (conj H1 H2))) as (Hs & Hfw).
  split.
  - rewrite Hs. exact H1.
  - rewrite Hfw, length_app. reflexivity.
Defined.

Lemma center_after_moves_witness :
  mainComponent Sample.rendered = Some [0; 1; 2]%nat /\
  position (center (moves [Zoom Sample.wheel_in; Pan (Vector.new 5 7);
                           Zoom Sample.wheel_out] Sample.rendered))
  = position (center Sample.rendered).
Proof.
  assert (H0 : mainComponent Sample.rendered = Some [0; 1; 2]%nat)
    by (vm_compute; reflexivity).
  split; [exact H0|].
  exact (proj1 (center_after_moves
                  [Zoom Sample.wheel_in; Pan (Vector.new 5 7); Zoom Sample.wheel_out]
                  Sample.rendered _ H0)).
Defined.

Lemma workspace_run_keeps_viewport_witness :
  exists w',
    invokes [OnWheel Sample.wheel_in; SelectStep 2%nat; RemoveSelectedStep;
             ToggleIsReadonly; OnMouseDown (Sample.click 0 0%nat);
             SetPosition (Vector.new 5 7); OnWheel Sample.wheel_out;
             NotifyChanged; Center] Sample.selected1 = Some w' /\
    scale_in_range w' /\ view_synced w'.
Proof.
  assert (H1 : scale_in_range Sample.selected1)
    by (split; vm_compute; discriminate).
  assert (H2 : view_synced Sample.selected1)
    by (repeat split; vm_compute; reflexivity).
  assert (H3 : view_shows_main Sample.selected1) by (vm_compute; reflexivity).
  destruct (invokes [OnWheel Sample.wheel_in; SelectStep 2%nat; RemoveSelectedStep;
                     ToggleIsReadonly; OnMouseDown (Sample.click 0 0%nat);
                     SetPosition (Vector.new 5 7); OnWheel Sample.wheel_out;
                     NotifyChanged; Center] Sample.selected1) as [w'|] eqn:Hrun;
    [|vm_compute in Hrun; discriminate Hrun].
  exists w'. split; [reflexivity|].
  destruct (workspace_run_keeps_viewport _ _ _ H1 H2 H3 Hrun) as (Hr & Hs & _).
  split; [exact Hr | exact Hs].
Defined.

Lemma clearSelectedStep_twice_witness :
  exists w1,
    clearSelectedStep Sample.selected1 = Some w1 /\
    clearSelectedStep w1 = Some w1.
Proof.
  destruct (clearSelectedStep Sample.selected1) as [w1|] eqn:Hrun;
    [|vm_compute in Hrun; discriminate Hrun].
  exists w1. split; [reflexivity|].
  exact (proj1 (proj2 (clearSelectedStep_twice Sample.selected1 w1 Hrun))).
Defined.

Lemma selectStep_clearSelectedStep_round_trip_witness :
  selectedStep Sample.rendered = None /\
  exists w1 w2,
    selectStep 1%nat Sample.rendered = Some w1 /\
    clearSelectedStep w1 = Some w2 /\
    components w2 = components Sample.rendered.
Proof.
  assert (H0 : selectedStep Sample.rendered = None) by (vm_compute; reflexivity).
  assert (H1 : components Sample.rendered !! 1%nat =
               Some {| step := 12; parentSequence := 0; state := default |})
    by (vm_compute; reflexivity).
  split; [exact H0|].
  destruct (selectStep_clearSelectedStep_round_trip Sample.rendered 1%nat _
              H0 H1 eq_refl) as (w1 & w2 & Hs & Hc & Hcomps & _).
  exists w1, w2. split; [exact Hs|]. split; [exact Hc | exact Hcomps].
Defined.

Lemma selectStep_again_notifies_witness :
  selectedStep Sample.selected1 = Some 1%nat /\
  exists w',
    selectStep 1%nat Sample.selected1 = Some w' /\
    components w' = components Sample.selected1 /\
    forwarded w' =
      forwarded Sample.selected1 ++ [onSelectedStepChanged (Some 12%nat)].
Proof.
  assert (H0 : selectedStep Sample.selected1 = Some 1%nat) by reflexivity.
  assert (H1 : components Sample.selected1 !! 1%nat =
               Some {| step := 12; parentSequence := 0; state := selected |})
    by (vm_compute; reflexivity).
  split; [exact H0|].
  destruct (selectStep_again_notifies Sample.selected1 1%nat _ H0 H1 eq_refl)
    as (w' & Hrun & Hcomps & _ & _ & Hfw).
  exists w'. split; [exact Hrun|]. split; [exact Hcomps | exact Hfw].
Defined.

Lemma removeSelectedStep_twice_witness :
  exists w1,
    removeSelectedStep Sample.selected1 = Some w1 /\
    removeSelectedStep w1 = Some w1.
Proof.
  destruct (removeSelectedStep Sample.selected1) as [w1|] eqn:Hrun;
    [|vm_compute in Hrun; discriminate Hrun].
  exists w1. split; [reflexivity|].
  exact (proj2 (removeSelectedStep_twice Sample.selected1 w1 Hrun)).
Defined.

Lemma readonly_only_read_by_onMouseDown_witness :
  reads_isReadonly RemoveSelectedStep = false /\
  removeSelectedStep (with_isReadonly true Sample.selected1) =
    with_isReadonly true <$> removeSelectedStep Sample.selected1.
Proof.
  assert (H0 : reads_isReadonly (@RemoveSelectedStep) = false) by reflexivity.
  split; [exact H0|].
  exact (readonly_only_read_by_onMouseDown RemoveSelectedStep true
           Sample.selected1 H0).
Defined.

Lemma removeSelectedStep_takes_one_witness :
  selectedStep Sample.stale = Some 1%nat /\
  exists w' steps',
    removeSelectedStep Sample.stale = Some w' /\
    sequences w' !! 0%nat = Some steps' /\
    length steps' = 2%nat.
Proof.
  assert (Ha : selectedStep Sample.stale = Some 1%nat) by reflexivity.
  assert (Hc : components Sample.stale !! 1%nat =
               Some {| step := 99; parentSequence := 0; state := selected |})
    by (vm_compute; reflexivity).
  assert (Hs : sequences Sample.stale !! 0%nat = Some [11; 12; 13]%nat)
    by (vm_compute; reflexivity).
  split; [exact Ha|].
  destruct (removeSelectedStep_takes_one Sample.stale 1%nat _ _ Ha Hc Hs)
    as (w' & steps' & Hrun & Hseq & Hlen & _).
  exists w', steps'. split; [exact Hrun|]. split; [exact Hseq | exact Hlen].
Defined.

Lemma removeSelectedStep_step_gone_witness :
  NoDup [11; 12; 13]%nat /\
  exists w' steps',
    removeSelectedStep Sample.selected1 = Some w' /\
    sequences w' !! 0%nat = Some steps' /\
    (12%nat ∉ steps') /\ (13%nat ∈ steps').
Proof.
  assert (Ha : selectedStep Sample.selected1 = Some 1%nat) by reflexivity.
  assert (Hc : components Sample.selected1 !! 1%nat =
               Some {| step := 12; parentSequence := 0; state := selected |})
    by (vm_compute; reflexivity).
  assert (Hs : sequences Sample.selected1 !! 0%nat = Some [11; 12; 13]%nat)
    by (vm_compute; reflexivity).
  assert (Hin : 12%nat ∈ [11; 12; 13]%nat)
    by (apply elem_of_cons; right; apply elem_of_cons; left; reflexivity).
  assert (H13 : 13%nat ∈ [11; 12; 13]%nat)
    by (do 2 (apply elem_of_cons; right); apply elem_of_cons; left; reflexivity).
  assert (Hnd : NoDup [11; 12; 13]%nat)
    by (apply (bool_decide_unpack _); vm_compute; exact I).
  split; [exact Hnd|].
  destruct (removeSelectedStep_step_gone Sample.selected1 1%nat _ _
              Ha Hc Hs Hin Hnd) as (w' & steps' & Hrun & Hseq & _ & Hmem).
  exists w', steps'. split; [exact Hrun|]. split; [exact Hseq|]. split.
  - intros [_ Hne]%Hmem. exact (Hne eq_refl).
  - apply Hmem. split; [exact H13 | discriminate].
Defined.


Lemma toolbox_run_requests_witness :
  Toolbox.isReadonly (Sample.designer false) = false /\
  exists d',
    ToolboxRuns.handles Sample.item SampleRuns.inputs (Sample.designer false)
      = Some d' /\
    (Toolbox.behaviorController d').*1 = [Vector.new 5 6; Vector.new 7 8] /\
    Toolbox.uid d' = 4%nat.
Proof.
  assert (H0 : Toolbox.isReadonly (Sample.designer false) = false) by reflexivity.
  assert (H1 : Toolbox.objects (Sample.designer false) !! Toolbox.step Sample.item
               = Some Sample.template) by (vm_compute; reflexivity).
  split; [exact H0|].
  destruct (toolbox_run_requests Sample.item SampleRuns.inputs
              (Sample.designer false) _ H0 H1)
    as (d' & Hrun & Hbc & Huid & _).
  exists d'. split; [exact Hrun|]. split; [exact Hbc | exact Huid].
Defined.

Lemma toolbox_run_new_steps_witness :
  Toolbox.isReadonly (Sample.designer false) = false /\
  exists d',
    ToolboxRuns.handles Sample.item SampleRuns.inputs (Sample.designer false)
      = Some d' /\
    NoDup (ToolboxRuns.requestedSteps (Toolbox.behaviorController d')).
Proof.
  assert (H0 : Toolbox.isReadonly (Sample.designer false) = false) by reflexivity.
  assert (H1 : Toolbox.objects (Sample.designer false) !! Toolbox.step Sample.item
               = Some Sample.template) by (vm_compute; reflexivity).
  split; [exact H0|].
  destruct (toolbox_run_new_steps Sample.item SampleRuns.inputs
              (Sample.designer false) _ H0 H1) as (d' & Hrun & Hnd & _).
  exists d'. split; [exact Hrun | exact Hnd].
Defined.

Lemma toolbox_event_flags_witness :
  Toolbox.objects (Sample.designer true) !! Toolbox.step Sample.item
    = Some Sample.template /\
  exists flags d',
    Toolbox.onTouchstart Sample.item
      {| Toolbox.touches := [Vector.new 7 8; Vector.new 9 9] |}
      (Sample.designer true) = Some (flags, d') /\
    Toolbox.defaultPrevented flags = true.
Proof.
  assert (H1 : Toolbox.objects (Sample.designer true) !! Toolbox.step Sample.item
               = Some Sample.template) by (vm_compute; reflexivity).
  split; [exact H1|].
  destruct (toolbox_event_flags Sample.item (Sample.designer true) _ H1)
    as (Htouch & _).
  destruct (Htouch {| Toolbox.touches := [Vector.new 7 8; Vector.new 9 9] |})
    as (flags & d' & Hrun & Hprevented & _).
  exists flags, d'. split; [exact Hrun | exact Hprevented].
Defined.

End MoreInstances.
